(** * Jewellery grid (src/app.js): a shallow embedding and its properties

    The page script is a set of ES6 classes over the DOM.  The embedding
    follows the script class by class:

    - numbers are [Z] (identifiers and counters are integers), with the
      rounding to a double written out where the script computes on an
      identifier; strings are [string] read as the UTF-8 bytes of the JS
      string, and a value that may be [undefined] is an [option];
    - the [Set] of loaded identifiers is a [gset Z]; a [dataset]
      (DOMStringMap) and the own properties of an object are [gmap]s from
      [string];
    - methods that touch [this] or the document are computations in a state
      and exception monad over one record holding the manager's fields and
      the page elements it refers to. *)

From Stdlib Require Import ZArith Ascii String List Lia.
From stdpp Require Import base decidable option list gmap sets strings pretty.

#[local] Set Warnings "-clear-no-such-hyp".

Local Open Scope string_scope.
Local Open Scope list_scope.
Local Open Scope Z_scope.

(** ** JavaScript values and operators used by the script *)

Module JS.

Inductive Value :=
| Undefined
| Number (n : Z)
| Str (s : string).

(** [String(v)], the conversion a template literal applies to [${v}]. *)
Definition toString (v : Value) : string :=
  match v with
  | Undefined => "undefined"
  | Number n => pretty n
  | Str s => s
  end.

Definition ofOption (o : option string) : Value :=
  match o with
  | Some s => Str s
  | None => Undefined
  end.

(** An integer as a double holds it: up to [2^53] in size it is itself,
    beyond that it is rounded to the nearest multiple of the power of two
    that leaves 53 significant bits, a tie going to the even one. *)
Definition roundDouble (z : Z) : Z :=
  let a := Z.abs z in
  if a <=? 2 ^ 53 then z
  else
    let e := Z.log2 a - 52 in
    let q := a / 2 ^ e in
    let r := a mod 2 ^ e in
    let q' :=
      if (2 ^ e <? 2 * r) || ((2 * r =? 2 ^ e) && Z.odd q) then q + 1 else q in
    Z.sgn z * (q' * 2 ^ e).

(** [a - b] on integers that are finite doubles. *)
Definition sub (a b : Z) : Z := roundDouble (a - b).

(** [a % b] on integers: the remainder has the sign of the dividend (and is
    exact, as the remainder of two doubles is); a zero divisor gives NaN,
    written [None]. *)
Definition rem (a b : Z) : option Z :=
  if decide (b = 0) then None else Some (Z.rem a b).

(** [arr[i]] for a numeric [i]: [undefined] outside [0 .. length-1] and for
    NaN. *)
Definition index {A} (arr : list A) (i : option Z) : option A :=
  match i with
  | Some i => if decide (0 ≤ i) then arr !! Z.to_nat i else None
  | None => None
  end.

(** [a || b] on strings that may be [undefined]: [undefined] and the empty
    string are falsy. *)
Definition or_else (a : option string) (b : string) : string :=
  match a with
  | Some s => if decide (s = "") then b else s
  | None => b
  end.

(** [Array.from({ length: n }, (_, i) => f(i))]: a length that is not
    positive gives the empty array. *)
Definition arrayFrom {A} (n : Z) (f : Z → A) : list A :=
  (λ i : nat, f (Z.of_nat i)) <$> seq 0 (Z.to_nat n).

(** *** [encodeURIComponent]

    Every byte of the UTF-8 form is escaped as [%XX] (upper-case hex) except
    the unreserved marks [A-Z a-z 0-9 - _ . ! ~ * ' ( )]. *)

Definition between (lo c hi : ascii) : bool :=
  (N_of_ascii lo <=? N_of_ascii c)%N && (N_of_ascii c <=? N_of_ascii hi)%N.

Definition unreserved (c : ascii) : bool :=
  between "A" c "Z" || between "a" c "z" || between "0" c "9"
  || bool_decide (c ∈ ["-"; "_"; "."; "!"; "~"; "*"; "'"; "("; ")"]%char).

Definition hexDigit (n : N) : ascii :=
  if (n <? 10)%N then ascii_of_N (N_of_ascii "0" + n)
  else ascii_of_N (N_of_ascii "A" + (n - 10)).

Definition escape (c : ascii) : string :=
  String "%" (String (hexDigit (N_of_ascii c / 16))
                     (String (hexDigit (N_of_ascii c mod 16)) "")).

Fixpoint encodeURIComponent (s : string) : string :=
  match s with
  | "" => ""
  | String c rest =>
      (if unreserved c then String c "" else escape c)
      +:+ encodeURIComponent rest
  end.

(** *** Percent-decoding, the inverse reading of an encoded component: [%XX]
    stands for the byte [XX]; a [%] that two hex digits do not follow is
    malformed. *)

Definition hexValue (c : ascii) : option N :=
  if between "0" c "9" then Some (N_of_ascii c - N_of_ascii "0")%N
  else if between "A" c "F" then Some (N_of_ascii c - N_of_ascii "A" + 10)%N
  else if between "a" c "f" then Some (N_of_ascii c - N_of_ascii "a" + 10)%N
  else None.

Fixpoint percentDecode (s : string) : option string :=
  match s with
  | "" => Some ""
  | String "%" (String h (String l rest)) =>
      match hexValue h, hexValue l with
      | Some a, Some b => String (ascii_of_N (16 * a + b)) <$> percentDecode rest
      | _, _ => None
      end
  | String "%" _ => None
  | String c rest => String c <$> percentDecode rest
  end.

(** [hay.includes(needle)]: [needle] occurs in [hay] as a contiguous run. *)
Fixpoint includes (hay needle : string) : bool :=
  String.prefix needle hay ||
  match hay with
  | "" => false
  | String _ rest => includes rest needle
  end.

End JS.

(** ** Configuration constants *)

Record Config := {
  BASE_PATH : string;
  IMAGE_PREFIX : string;
  TOTAL_IMAGES : Z;
  INITIAL_LOAD : Z;
  BATCH_SIZE : Z;
  FALLBACK_IMAGES : list string;
}.

Definition JEWELLERY_CONFIG : Config := {|
  BASE_PATH := "images/";
  IMAGE_PREFIX := "jewel-";
  TOTAL_IMAGES := 36;
  INITIAL_LOAD := 8;
  BATCH_SIZE := 8;
  FALLBACK_IMAGES := [
    "https://images.unsplash.com/photo-1535632066927-ab7c9ab60908?ixlib=rb-4.0.3&auto=format&fit=crop&w=600&q=80";
    "https://images.unsplash.com/photo-1594576722512-582d5577dc56?ixlib=rb-4.0.3&auto=format&fit=crop&w=600&q=80";
    "https://images.unsplash.com/photo-1599643478518-a784e5dc4c8f?ixlib=rb-4.0.3&auto=format&fit=crop&w=600&q=80";
    "https://images.unsplash.com/photo-1611591437281-460bfbe1220a?ixlib=rb-4.0.3&auto=format&fit=crop&w=600&q=80";
    "https://images.unsplash.com/photo-1596944090625-7d7c2e6ab234?ixlib=rb-4.0.3&auto=format&fit=crop&w=600&q=80"
  ];
|}.

(** The names table: thirty-six entries. *)
Definition JEWELLERY_NAMES : list string := [
  "Jewellery"; "Jewellery"; "Jewellery"; "Jewellery"; "Jewellery"; "Jewellery";
  "Jewellery"; "Jewellery"; "Jewellery"; "Jewellery"; "Jewellery"; "Jewellery";
  "Jewellery"; "Jewellery"; "Jewellery"; "Jewellery"; "Jewellery"; "Jewellery";
  "Jewellery"; "Jewellery"; "Jewellery"; "Jewellery"; "Jewellery"; "Jewellery";
  "Jewellery"; "Jewellery"; "Jewellery"; "Jewellery"; "Jewellery"; "Jewellery";
  "Jewellery"; "Jewellery"; "Jewellery"; "Jewellery"; "Jewellery"; "Jewellery"
].

(** ** JewelleryImageManager *)

Module JewelleryImageManager.
Section WithConfig.
Variable cfg : Config.

(** The template writes [index] out in decimal: [pretty] is that text for an
    integer of up to [2^53] in size; beyond it the script's text is the
    shortest that reads back as the same double. *)
Definition localPath (index : Z) : string :=
  BASE_PATH cfg +:+ IMAGE_PREFIX cfg +:+ pretty index +:+ ".jpg".

(** [(index - 1) % FALLBACK_IMAGES.length], the difference being rounded as
    the script's subtraction rounds it. *)
Definition fallbackIndex (index : Z) : option Z :=
  JS.rem (JS.sub index 1) (Z.of_nat (length (FALLBACK_IMAGES cfg))).

Definition getFallbackImage (index : Z) : option string :=
  JS.index (FALLBACK_IMAGES cfg) (fallbackIndex index).

Definition getImageSrc (index : Z) : option string :=
  if decide (index ≤ TOTAL_IMAGES cfg) then Some (localPath index)
  else getFallbackImage index.

End WithConfig.
End JewelleryImageManager.

(** ** JewelleryItem *)

Module JewelleryItem.

Record t := {
  id : Z;
  name : string;
  imageSrc : option string;
}.

Definition label (id : Z) : string := "Jewellery Item " +:+ pretty id.

(** [getName] reads [this.id] only; the constructor calls it right after
    setting that field.  The difference [this.id - 1] serves as an index and
    nothing else, and is written exact: where the script's subtraction
    rounds, from [2^53] on, no array has an entry. *)
Definition getName (names : list string) (id : Z) : string :=
  JS.or_else (JS.index names (Some (id - 1))) (label id).

Definition sentence (name : string) : string :=
  "Hi Sisters Sparkles, I'm interested in buying " +:+ name
  +:+ ". Please share details and price.".

Definition getWhatsAppMessage (this : t) : string :=
  let message := sentence (name this) in
  JS.encodeURIComponent message.

Definition new (cfg : Config) (names : list string) (id : Z) : t := {|
  id := id;
  name := getName names id;
  imageSrc := JewelleryImageManager.getImageSrc cfg id;
|}.

(** The own properties of an item, as property reads see them: the three the
    constructor assigns, and nothing else. *)
Definition properties (this : t) : gmap string JS.Value :=
  <["imageSrc" := JS.ofOption (imageSrc this)]>
    (<["name" := JS.Str (name this)]>
      (<["id" := JS.Number (id this)]> ∅)).

(** [this.p] for a property name [p]. *)
Definition get (this : t) (p : string) : JS.Value :=
  default JS.Undefined (properties this !! p).

End JewelleryItem.


(** ** The page and the manager's fields *)

(** The [<img>] of a card: its [data-src] and [alt] attributes, the [src]
    once one is assigned, and the inline opacity. *)
Record CardImage := {
  img_dataSrc : string;
  img_alt : string;
  img_src : option string;
  img_opacity : string;
}.

(** A rendered card: [card.dataset.itemId], the image, and the dataset of the
    buy button.  Attribute values are the interpolated text of the template,
    which is what the HTML parser yields for text free of double quotes and
    ampersands, as the names and paths of this script are.  The class that the
    reveal timers add later is not part of the model. *)
Record Card := {
  card_itemId : string;
  card_image : CardImage;
  card_button : gmap string string;
}.

Record Button := {
  disabled : bool;
  textContent : string;
}.

Record ModalImage := {
  modal_src : string;
  modal_alt : string;
}.

(** The fields of the grid manager together with the elements they refer to
    and the elements of the confirmation dialog; an element the page lacks is
    [None].  An element with a [classList] is that set of class names, the
    grid is the list of its cards. *)
Record State := {
  grid : option (list Card);
  loadingIndicator : option (gset string);
  viewMoreContainer : option (gset string);
  viewMoreBtn : option Button;
  loadedItems : gset Z;
  isInitializing : bool;
  buyNowModal : option (gset string);
  modalItem : option string;
  modalImage : option ModalImage;
  modalWhatsappLink : option string;
  bodyOverflow : string;
}.

Definition set_grid (g : option (list Card)) (s : State) : State :=
  {| grid := g; loadingIndicator := loadingIndicator s;
     viewMoreContainer := viewMoreContainer s; viewMoreBtn := viewMoreBtn s;
     loadedItems := loadedItems s; isInitializing := isInitializing s;
     buyNowModal := buyNowModal s; modalItem := modalItem s;
     modalImage := modalImage s; modalWhatsappLink := modalWhatsappLink s;
     bodyOverflow := bodyOverflow s |}.

Definition set_loadingIndicator (c : option (gset string)) (s : State) : State :=
  {| grid := grid s; loadingIndicator := c;
     viewMoreContainer := viewMoreContainer s; viewMoreBtn := viewMoreBtn s;
     loadedItems := loadedItems s; isInitializing := isInitializing s;
     buyNowModal := buyNowModal s; modalItem := modalItem s;
     modalImage := modalImage s; modalWhatsappLink := modalWhatsappLink s;
     bodyOverflow := bodyOverflow s |}.

Definition set_viewMoreContainer (c : option (gset string)) (s : State) : State :=
  {| grid := grid s; loadingIndicator := loadingIndicator s;
     viewMoreContainer := c; viewMoreBtn := viewMoreBtn s;
     loadedItems := loadedItems s; isInitializing := isInitializing s;
     buyNowModal := buyNowModal s; modalItem := modalItem s;
     modalImage := modalImage s; modalWhatsappLink := modalWhatsappLink s;
     bodyOverflow := bodyOverflow s |}.

Definition set_viewMoreBtn (b : option Button) (s : State) : State :=
  {| grid := grid s; loadingIndicator := loadingIndicator s;
     viewMoreContainer := viewMoreContainer s; viewMoreBtn := b;
     loadedItems := loadedItems s; isInitializing := isInitializing s;
     buyNowModal := buyNowModal s; modalItem := modalItem s;
     modalImage := modalImage s; modalWhatsappLink := modalWhatsappLink s;
     bodyOverflow := bodyOverflow s |}.

Definition set_loadedItems (l : gset Z) (s : State) : State :=
  {| grid := grid s; loadingIndicator := loadingIndicator s;
     viewMoreContainer := viewMoreContainer s; viewMoreBtn := viewMoreBtn s;
     loadedItems := l; isInitializing := isInitializing s;
     buyNowModal := buyNowModal s; modalItem := modalItem s;
     modalImage := modalImage s; modalWhatsappLink := modalWhatsappLink s;
     bodyOverflow := bodyOverflow s |}.

Definition set_isInitializing (b : bool) (s : State) : State :=
  {| grid := grid s; loadingIndicator := loadingIndicator s;
     viewMoreContainer := viewMoreContainer s; viewMoreBtn := viewMoreBtn s;
     loadedItems := loadedItems s; isInitializing := b;
     buyNowModal := buyNowModal s; modalItem := modalItem s;
     modalImage := modalImage s; modalWhatsappLink := modalWhatsappLink s;
     bodyOverflow := bodyOverflow s |}.

(** What the dialog shows, set in one go by the buy handler. *)
Definition set_dialog (m : gset string) (item : string) (img : ModalImage)
    (href : string) (overflow : string) (s : State) : State :=
  {| grid := grid s; loadingIndicator := loadingIndicator s;
     viewMoreContainer := viewMoreContainer s; viewMoreBtn := viewMoreBtn s;
     loadedItems := loadedItems s; isInitializing := isInitializing s;
     buyNowModal := Some m; modalItem := Some item;
     modalImage := Some img; modalWhatsappLink := Some href;
     bodyOverflow := overflow |}.

(** [classList.toggle(token, force)] and [classList.remove(token)]. *)
Definition classList_toggle (token : string) (force : bool)
    (cl : gset string) : gset string :=
  if force then cl ∪ {[token]} else cl ∖ {[token]}.

Definition classList_remove (token : string) (cl : gset string) : gset string :=
  cl ∖ {[token]}.

(** ** Computations: state, and the [TypeError] of a property read on [null] *)

Inductive Completion (A : Type) :=
| Normal (a : A)
| TypeError.
Arguments Normal {A} a.
Arguments TypeError {A}.

Definition M (A : Type) : Type := State → Completion A * State.

Definition ret {A} (a : A) : M A := λ s, (Normal a, s).

Definition bind {A B} (m : M A) (k : A → M B) : M B :=
  λ s, match m s with
       | (Normal a, s') => k a s'
       | (TypeError, s') => (TypeError, s')
       end.

Definition throw {A} : M A := λ s, (TypeError, s).
Definition get : M State := λ s, (Normal s, s).
Definition modify (f : State → State) : M unit := λ s, (Normal tt, f s).

(** Reading through a reference that may be [null]. *)
Definition deref {A} (o : State → option A) : M A :=
  λ s, match o s with
       | Some a => ret a s
       | None => throw s
       end.

#[global] Instance M_ret : MRet M := @ret.
#[global] Instance M_bind : MBind M := λ A B k m, bind m k.

(** The state a computation leaves, however it completes. *)
Definition exec {A} (m : M A) (s : State) : State := snd (m s).
Definition completion {A} (m : M A) (s : State) : Completion A := fst (m s).

(** ** JewelleryGridManager *)

Module JewelleryGridManager.
Section WithConfig.
Variable cfg : Config.
Variable names : list string.

(** The constructor's field initialisers, given the elements
    [getElementById] finds on [page]: an empty [Set] and a cleared flag.  The
    constructor then starts [init], whose load is [loadInitialItems] below.
    The dialog elements are looked up at each click, so they belong to the
    page from the start. *)
Definition new (page : State) : State :=
  set_isInitializing false (set_loadedItems ∅ page).

Definition createJewelleryCard (jewellery : JewelleryItem.t) : Card :=
  let prop p := JS.toString (JewelleryItem.get jewellery p) in
  {| card_itemId := prop "id";
     card_image :=
       {| img_dataSrc := prop "imageSrc";
          img_alt := prop "name";
          img_src := None;
          img_opacity := "0" |};
     card_button :=
       <["netlifySrc" := prop "netlifyImageUrl"]>
         (<["imageSrc" := prop "imageSrc"]>
           (<["itemName" := prop "name"]>
             (<["itemId" := prop "id"]> ∅))) |}.

(** Every image of the grid has a [data-src], so each gets its source
    assigned (the load and error handlers run later, as events). *)
Definition observe (c : Card) : Card :=
  {| card_itemId := card_itemId c;
     card_image :=
       {| img_dataSrc := img_dataSrc (card_image c);
          img_alt := img_alt (card_image c);
          img_src := Some (img_dataSrc (card_image c));
          img_opacity := img_opacity (card_image c) |};
     card_button := card_button c |}.

Definition setupImageObservers : M unit :=
  images ← deref grid;
  modify (set_grid (Some (observe <$> images))).

Definition showLoading (show : bool) : M unit :=
  modify (λ s,
    match loadingIndicator s with
    | Some cl =>
        set_loadingIndicator (Some (classList_toggle "hidden" (negb show) cl)) s
    | None => s
    end).

Definition updateViewMoreButton : M unit :=
  modify (λ s,
    match viewMoreContainer s with
    | None => s
    | Some cl =>
        let hasMoreItems :=
          bool_decide (Z.of_nat (size (loadedItems s)) < TOTAL_IMAGES cfg) in
        set_viewMoreContainer
          (Some (classList_toggle "hidden" (negb hasMoreItems) cl)) s
    end).

(** The [for ... of] loop of [loadItemsBatch], filling the fragment. *)
Fixpoint fillFragment (itemIds : list Z) (fragment : list Card)
    : M (list Card) :=
  match itemIds with
  | [] => mret fragment
  | itemId :: rest =>
      s ← get;
      if decide (itemId ∈ loadedItems s) then fillFragment rest fragment
      else
        let jewellery := JewelleryItem.new cfg names itemId in
        let card := createJewelleryCard jewellery in
        modify (λ s, set_loadedItems (loadedItems s ∪ {[itemId]}) s);;
        fillFragment rest (fragment ++ [card])
  end.

(** The reveal animation that [setTimeout] schedules only adds a class to
    the cards later; it is left out. *)
Definition loadItemsBatch (itemIds : list Z) : M unit :=
  fragment ← fillFragment itemIds [];
  children ← deref grid;
  modify (set_grid (Some (children ++ fragment)));;
  setupImageObservers.

(** [loadItemsBatch] has no suspension point of its own, so the awaited call
    has run to its end when the caller suspends, and the caller resumes
    before any other event handler runs: each method is one step. *)
Definition loadInitialItems : M unit :=
  showLoading true;;
  let endIndex := Z.min (INITIAL_LOAD cfg) (TOTAL_IMAGES cfg) in
  let items := JS.arrayFrom endIndex (λ i, i + 1) in
  loadItemsBatch items;;
  showLoading false;;
  updateViewMoreButton.

Definition loadMoreItems : M unit :=
  btn ← deref viewMoreBtn;
  if disabled btn then mret tt
  else
    modify (set_viewMoreBtn
              (Some {| disabled := true; textContent := "Loading..." |}));;
    s ← get;
    let startIndex := Z.of_nat (size (loadedItems s)) + 1 in
    let endIndex :=
      Z.min (Z.of_nat (size (loadedItems s)) + BATCH_SIZE cfg)
            (TOTAL_IMAGES cfg) in
    let newItems :=
      JS.arrayFrom (endIndex - startIndex + 1) (λ i, startIndex + i) in
    loadItemsBatch newItems;;
    modify (set_viewMoreBtn
              (Some {| disabled := false;
                       textContent := "View More Jewellery" |}));;
    updateViewMoreButton.

End WithConfig.

(** The line feed that [\n] stands for in the message template. *)
Definition LF : string := String "010" "".

Definition netlifyImageUrl (itemId : string) : string :=
  "https://sister-sparkles.netlify.app/images/jewel-" +:+ itemId +:+ ".jpg".

Definition whatsAppText (displayName netlifyImageUrl itemId : string) : string :=
  "Hi Sisters Sparkles! " +:+ LF +:+ LF
  +:+ "I'm interested in buying this jewellery from your exhibition:"
  +:+ LF +:+ LF
  +:+ " *" +:+ displayName +:+ "*" +:+ LF
  +:+ " *Image:* " +:+ netlifyImageUrl +:+ LF
  +:+ " *Item #" +:+ itemId +:+ "*" +:+ LF +:+ LF
  +:+ "Please share price and availability. Thank you!".

(** [handleWhatsAppClick(button)], with the button given by its [dataset];
    the dialog elements are looked up on the page at each click. *)
Definition handleWhatsAppClick (button : gmap string string) : M unit :=
  let itemId := JS.toString (JS.ofOption (button !! "itemId")) in
  let itemName := button !! "itemName" in
  let localImageSrc := JS.toString (JS.ofOption (button !! "imageSrc")) in
  let netlifyImageUrl := netlifyImageUrl itemId in
  modify (λ s,
    match buyNowModal s, modalItem s, modalImage s, modalWhatsappLink s with
    | Some modal, Some _, Some _, Some _ =>
        let displayName := JS.or_else itemName ("Jewellery Item " +:+ itemId) in
        let message := whatsAppText displayName netlifyImageUrl itemId in
        let whatsappUrl :=
          "https://wa.me/917436053004?text=" +:+ JS.encodeURIComponent message in
        set_dialog (classList_remove "hidden" modal)
                   displayName
                   {| modal_src := localImageSrc; modal_alt := displayName |}
                   whatsappUrl
                   "hidden" s
    | _, _, _, _ => s
    end).

(** A host page with every element the script looks up, an empty grid, and
    the dialog and the "load more" container hidden; the examples start from
    it. *)
Definition page : State := {|
  grid := Some [];
  loadingIndicator := Some ∅;
  viewMoreContainer := Some {["hidden"]};
  viewMoreBtn := Some {| disabled := false; textContent := "View More Jewellery" |};
  loadedItems := ∅;
  isInitializing := false;
  buyNowModal := Some {["hidden"]};
  modalItem := Some "";
  modalImage := Some {| modal_src := ""; modal_alt := "" |};
  modalWhatsappLink := Some "#";
  bodyOverflow := "";
|}.

End JewelleryGridManager.

(** ** Notions used to state the properties *)

(** The cards in the grid, none when the page has no grid. *)
Definition cards (s : State) : list Card := default [] (grid s).

(** The rendered cards of identifier [x]. *)
Definition cardsFor (x : Z) (g : list Card) : list Card :=
  filter (λ c, card_itemId c = pretty x) g.

(** The identifiers of a batch that the loop does not skip, in order. *)
Fixpoint fresh (itemIds : list Z) (loaded : gset Z) : list Z :=
  match itemIds with
  | [] => []
  | x :: rest =>
      if decide (x ∈ loaded) then fresh rest loaded
      else x :: fresh rest (loaded ∪ {[x]})
  end.

(** The card rendered for identifier [x]. *)
Definition newCard (cfg : Config) (names : list string) (x : Z) : Card :=
  JewelleryGridManager.createJewelleryCard (JewelleryItem.new cfg names x).

(** The batch an initial load and a load-more call ask for. *)
Definition initialBatch (cfg : Config) : list Z :=
  seqZ 1 (Z.min (INITIAL_LOAD cfg) (TOTAL_IMAGES cfg)).

Definition nextBatch (cfg : Config) (s : State) : list Z :=
  let n := Z.of_nat (size (loadedItems s)) in
  seqZ (n + 1) (Z.min (n + BATCH_SIZE cfg) (TOTAL_IMAGES cfg) - (n + 1) + 1).

(** The effect of a batch load on the identifiers and on the grid. *)
Definition loads (cfg : Config) (names : list string) (batch : list Z)
    (s s' : State) : Prop :=
  loadedItems s' = loadedItems s ∪ list_to_set batch ∧
  grid s' =
    (λ g, JewelleryGridManager.observe <$>
            (g ++ (newCard cfg names <$> fresh batch (loadedItems s)))) <$> grid s.

(** The class list of the "load more" container after a load that left [s']. *)
Definition toggled (cfg : Config) (s' : State) (cl : gset string) : gset string :=
  classList_toggle "hidden"
    (negb (bool_decide (Z.of_nat (size (loadedItems s')) < TOTAL_IMAGES cfg)))
    cl.

(** States reached from a new manager on a page whose grid shows no card yet,
    by initial loads and by load-more calls. *)
Inductive reachable (cfg : Config) (names : list string) : State → Prop :=
| reach_new page :
    cards page = [] → reachable cfg names (JewelleryGridManager.new page)
| reach_initial s :
    reachable cfg names s →
    reachable cfg names (exec (JewelleryGridManager.loadInitialItems cfg names) s)
| reach_more s :
    reachable cfg names s →
    reachable cfg names (exec (JewelleryGridManager.loadMoreItems cfg names) s).

(** Every card of the grid stands for one loaded identifier, and every loaded
    identifier has its card. *)
Definition rendered (s : State) : Prop :=
  ∀ g, grid s = Some g →
    ∃ ids : list Z,
      card_itemId <$> g = pretty <$> ids ∧ NoDup ids ∧
      list_to_set ids = loadedItems s.

(** The "load more" container is hidden. *)
Definition viewMoreHidden (s : State) : Prop :=
  ∃ cl, viewMoreContainer s = Some cl ∧ "hidden" ∈ cl.

(** ** The rest of the script: image events and the life cycle *)

(** *** [parseInt(string)] without a radix

    Leading white space goes, then a sign, then a [0x] or [0X] prefix that
    switches to radix 16; the value is that of the longest run of digits that
    follows, and NaN, written [None], when there is none.  White space is
    read off the UTF-8 bytes.  The result is a double: the integer the
    digits stand for, rounded, and an infinity when that is out of range
    (an engine may besides take the decimal digits after the twentieth for
    zeros, which is not modelled). *)

Module Parse.

Definition asciiSpace (a : ascii) : bool :=
  bool_decide (N_of_ascii a ∈ [9; 10; 11; 12; 13; 32]%N).

(** U+00A0. *)
Definition twoByteSpace (a b : ascii) : bool :=
  (N_of_ascii a =? 194)%N && (N_of_ascii b =? 160)%N.

(** U+1680, U+2000 to U+200A, U+2028, U+2029, U+202F, U+205F, U+3000 and
    U+FEFF. *)
Definition threeByteSpace (a b c : ascii) : bool :=
  let '(x, y, z) := (N_of_ascii a, N_of_ascii b, N_of_ascii c) in
  ((x =? 225) && (y =? 154) && (z =? 128))%N
  || ((x =? 226) && (y =? 128)
      && ((128 <=? z) && (z <=? 138) || (z =? 168) || (z =? 169) || (z =? 175)))%N
  || ((x =? 226) && (y =? 129) && (z =? 159))%N
  || ((x =? 227) && (y =? 128) && (z =? 128))%N
  || ((x =? 239) && (y =? 187) && (z =? 191))%N.

Fixpoint trimStart (s : string) : string :=
  match s with
  | "" => ""
  | String a r1 =>
      if asciiSpace a then trimStart r1
      else
        match r1 with
        | "" => s
        | String b r2 =>
            if twoByteSpace a b then trimStart r2
            else
              match r2 with
              | "" => s
              | String c r3 =>
                  if threeByteSpace a b c then trimStart r3 else s
              end
        end
  end.

Definition digitValue (radix : N) (c : ascii) : option N :=
  let value :=
    if JS.between "0" c "9" then Some (N_of_ascii c - N_of_ascii "0")%N
    else if JS.between "a" c "z" then Some (N_of_ascii c - N_of_ascii "a" + 10)%N
    else if JS.between "A" c "Z" then Some (N_of_ascii c - N_of_ascii "A" + 10)%N
    else None in
  match value with
  | Some d => if (d <? radix)%N then Some d else None
  | None => None
  end.

(** The value of the longest run of digits at the start of [s], on top of the
    digits read so far; [None] while no digit has been read. *)
Fixpoint digits (radix : N) (s : string) (acc : option N) : option N :=
  match s with
  | "" => acc
  | String c rest =>
      match digitValue radix c with
      | Some d => digits radix rest (Some (radix * default 0 acc + d))%N
      | None => acc
      end
  end.

(** The integer the text stands for, sign included, before it is made a
    double. *)
Definition mathInt (s : string) : option Z :=
  let s := trimStart s in
  let '(negative, s) :=
    match s with
    | String "-" rest => (true, rest)
    | String "+" rest => (false, rest)
    | _ => (false, s)
    end in
  let '(radix, s) :=
    match s with
    | String "0" (String x rest) =>
        if bool_decide (x = "x"%char ∨ x = "X"%char) then (16%N, rest)
        else (10%N, s)
    | _ => (10%N, s)
    end in
  match digits radix s None with
  | Some n => Some (if negative : bool then - Z.of_N n else Z.of_N n)
  | None => None
  end.

(** A number that is an integer or an infinity. *)
Inductive number :=
| Finite (z : Z)
| Infinity (negative : bool).

Definition toNumber (z : Z) : number :=
  let d := JS.roundDouble z in
  if Z.abs d <? 2 ^ 1024 then Finite d else Infinity (z <? 0).

Definition parseInt (s : string) : option number :=
  toNumber <$> mathInt s.

End Parse.

(** *** The handlers [setupImageObservers] puts on an image *)

(** [img.onload]: the image becomes visible. *)
Definition imageLoaded (c : Card) : Card :=
  {| card_itemId := card_itemId c;
     card_image :=
       {| img_dataSrc := img_dataSrc (card_image c);
          img_alt := img_alt (card_image c);
          img_src := img_src (card_image c);
          img_opacity := "1" |};
     card_button := card_button c |}.

(** [img.onerror]: with the identifier the enclosing card carries, when it is
    not empty, the source becomes the fallback for [parseInt] of it; for NaN
    and for an infinity the index is NaN and the fallback [undefined]. *)
Definition imageFailed (cfg : Config) (c : Card) : Card :=
  let itemId := card_itemId c in
  if decide (itemId = "") then c
  else
    let fallbackSrc :=
      match Parse.parseInt itemId with
      | Some (Parse.Finite n) => JewelleryImageManager.getFallbackImage cfg n
      | Some (Parse.Infinity _) => None
      | None => None
      end in
    {| card_itemId := card_itemId c;
       card_image :=
         {| img_dataSrc := img_dataSrc (card_image c);
            img_alt := img_alt (card_image c);
            img_src := Some (JS.toString (JS.ofOption fallbackSrc));
            img_opacity := img_opacity (card_image c) |};
       card_button := card_button c |}.

(** *** The manager with its listeners

    A function object is known by the number it got when it was created; the
    click listeners of the button and of the grid are lists of such numbers.
    Besides them the record holds whether the grid shows the "unable to load"
    placeholder and what went to [console.error]. *)
Record Manager := {
  this : State;
  btnListeners : list nat;
  gridListeners : list nat;
  functions : nat;
  fallbackShown : bool;
  consoleErrors : list string;
}.

Definition set_this (s : State) (w : Manager) : Manager :=
  {| this := s; btnListeners := btnListeners w;
     gridListeners := gridListeners w; functions := functions w;
     fallbackShown := fallbackShown w; consoleErrors := consoleErrors w |}.

Definition set_btnListeners (l : list nat) (w : Manager) : Manager :=
  {| this := this w; btnListeners := l;
     gridListeners := gridListeners w; functions := functions w;
     fallbackShown := fallbackShown w; consoleErrors := consoleErrors w |}.

Definition set_gridListeners (l : list nat) (w : Manager) : Manager :=
  {| this := this w; btnListeners := btnListeners w;
     gridListeners := l; functions := functions w;
     fallbackShown := fallbackShown w; consoleErrors := consoleErrors w |}.

Definition set_functions (n : nat) (w : Manager) : Manager :=
  {| this := this w; btnListeners := btnListeners w;
     gridListeners := gridListeners w; functions := n;
     fallbackShown := fallbackShown w; consoleErrors := consoleErrors w |}.

Definition set_fallbackShown (b : bool) (w : Manager) : Manager :=
  {| this := this w; btnListeners := btnListeners w;
     gridListeners := gridListeners w; functions := functions w;
     fallbackShown := b; consoleErrors := consoleErrors w |}.

Definition set_consoleErrors (l : list string) (w : Manager) : Manager :=
  {| this := this w; btnListeners := btnListeners w;
     gridListeners := gridListeners w; functions := functions w;
     fallbackShown := fallbackShown w; consoleErrors := l |}.

Definition MM (A : Type) : Type := Manager → Completion A * Manager.

Definition retMM {A} (a : A) : MM A := λ w, (Normal a, w).

Definition bindMM {A B} (m : MM A) (k : A → MM B) : MM B :=
  λ w, match m w with
       | (Normal a, w') => k a w'
       | (TypeError, w') => (TypeError, w')
       end.

#[global] Instance MM_ret : MRet MM := @retMM.
#[global] Instance MM_bind : MBind MM := λ A B k m, bindMM m k.

Definition getMM : MM Manager := λ w, (Normal w, w).
Definition modifyMM (f : Manager → Manager) : MM unit := λ w, (Normal tt, f w).

(** A method of the manager, run on its fields and page. *)
Definition lift {A} (m : M A) : MM A :=
  λ w, (fst (m (this w)), set_this (snd (m (this w))) w).

(** Evaluating an arrow function makes a new function object. *)
Definition newFunction : MM nat :=
  λ w, (Normal (functions w), set_functions (S (functions w)) w).

(** [addEventListener] does not add a listener that is there already;
    [removeEventListener] takes away the listener that is the given function
    object, and no other. *)
Definition addEventListener (f : nat) (listeners : list nat) : list nat :=
  if decide (f ∈ listeners) then listeners else listeners ++ [f].

Definition removeEventListener (f : nat) (listeners : list nat) : list nat :=
  filter (λ g, g ≠ f) listeners.

Definition consoleError (message : string) : MM unit :=
  modifyMM (λ w, set_consoleErrors (consoleErrors w ++ [message]) w).

(** [try { body } catch { handler } finally { final }]. *)
Definition tryCatchFinally (body handler final : MM unit) : MM unit :=
  λ w,
    let '(c1, w1) := body w in
    let '(c2, w2) :=
      match c1 with
      | Normal _ => (Normal tt, w1)
      | TypeError => handler w1
      end in
    let '(c3, w3) := final w2 in
    (match c3 with Normal _ => c2 | TypeError => TypeError end, w3).

Module Lifecycle.
Section WithConfig.
Variable cfg : Config.
Variable names : list string.

Definition setupEventListeners : MM unit :=
  w ← getMM;
  match viewMoreBtn (this w) with
  | Some _ =>
      f ← newFunction;
      modifyMM (λ w, set_btnListeners (addEventListener f (btnListeners w)) w)
  | None => mret tt
  end;;
  lift (deref grid);;
  f ← newFunction;
  modifyMM (λ w, set_gridListeners (addEventListener f (gridListeners w)) w).

(** The placeholder takes the place of whatever the grid showed. *)
Definition showErrorFallback : MM unit :=
  modifyMM (λ w,
    match grid (this w) with
    | Some _ => set_fallbackShown true (set_this (set_grid (Some []) (this w)) w)
    | None => w
    end).

(** [init]; the awaited load has run to its end when [init] suspends, and
    [init] resumes before any other event handler runs. *)
Definition init : MM unit :=
  w ← getMM;
  match grid (this w) with
  | None => consoleError "Jewellery grid element not found"
  | Some _ =>
      if isInitializing (this w) then mret tt
      else
        modifyMM (λ w, set_this (set_isInitializing true (this w)) w);;
        tryCatchFinally
          (setupEventListeners;;
           lift (JewelleryGridManager.loadInitialItems cfg names);;
           lift JewelleryGridManager.setupImageObservers)
          (consoleError "Failed to initialize jewellery grid:";;
           showErrorFallback)
          (modifyMM (λ w, set_this (set_isInitializing false (this w)) w))
  end.

(** [new JewelleryGridManager()] on [page]: the fields, then [init], whose
    promise nobody waits for. *)
Definition constructor (page : State) : Manager :=
  snd (init {| this := JewelleryGridManager.new page;
               btnListeners := []; gridListeners := []; functions := 0;
               fallbackShown := false; consoleErrors := [] |}).

(** [destroy]: each [removeEventListener] is given an arrow function written
    out anew. *)
Definition destroy : MM unit :=
  w ← getMM;
  match viewMoreBtn (this w) with
  | Some _ =>
      f ← newFunction;
      modifyMM (λ w, set_btnListeners (removeEventListener f (btnListeners w)) w)
  | None => mret tt
  end;;
  w ← getMM;
  match grid (this w) with
  | Some _ =>
      f ← newFunction;
      modifyMM (λ w, set_gridListeners (removeEventListener f (gridListeners w)) w)
  | None => mret tt
  end.

(** Dispatch of a click made by the user: the listeners run one after the
    other, each to the end of its own work, and what a listener's promise
    comes to is not looked at. *)
Fixpoint dispatch (listeners : list nat) (handler : MM unit) : MM unit :=
  match listeners with
  | [] => mret tt
  | _ :: rest => λ w, dispatch rest handler (snd (handler w))
  end.

(** A click on the "load more" button; a disabled button gets no click. *)
Definition clickViewMore : MM unit :=
  w ← getMM;
  match viewMoreBtn (this w) with
  | Some b =>
      if disabled b then mret tt
      else dispatch (btnListeners w)
             (lift (JewelleryGridManager.loadMoreItems cfg names))
  | None => mret tt
  end.

(** A click inside the grid on (or within) an element of class
    [whatsapp-btn] whose dataset is [button]: the grid's listeners look for
    the closest such element that has [data-item-id]. *)
Definition clickBuy (button : gmap string string) : MM unit :=
  w ← getMM;
  match grid (this w) with
  | Some _ =>
      dispatch (gridListeners w)
        (if decide (is_Some (button !! "itemId"))
         then lift (JewelleryGridManager.handleWhatsAppClick button)
         else mret tt)
  | None => mret tt
  end.

End WithConfig.
End Lifecycle.

(** Every listener was created before now, so a function object created from
    now on is none of them. *)
Definition listenersKnown (w : Manager) : Prop :=
  Forall (λ f, (f < functions w)%nat) (btnListeners w ++ gridListeners w).

(** * Properties *)

(** ** Percent-encoding *)

Lemma hexValue_hexDigit (n : N) :
  (n < 16)%N → JS.hexValue (JS.hexDigit n) = Some n.
Proof.
  intros Hn.
  assert (Hcases : n ∈ (N.of_nat <$> seq 0 16)).
  { apply list_elem_of_fmap. exists (N.to_nat n). split; [lia|].
    apply elem_of_seq. lia. }
  cbn in Hcases.
  repeat (apply elem_of_cons in Hcases as [->|Hcases]; [vm_compute; reflexivity|]).
  by apply elem_of_nil in Hcases.
Qed.

Lemma ascii_nibbles (c : ascii) :
  ascii_of_N (16 * (N_of_ascii c / 16) + N_of_ascii c mod 16) = c.
Proof.
  rewrite <- N.div_mod by lia. apply ascii_N_embedding.
Qed.

Lemma percentDecode_escape (c : ascii) (rest : string) :
  JS.percentDecode (JS.escape c +:+ rest) = String c <$> JS.percentDecode rest.
Proof.
  change (JS.percentDecode (JS.escape c +:+ rest)) with
    (match JS.hexValue (JS.hexDigit (N_of_ascii c / 16)),
           JS.hexValue (JS.hexDigit (N_of_ascii c mod 16)) with
     | Some a, Some b => String (ascii_of_N (16 * a + b)) <$> JS.percentDecode rest
     | _, _ => None
     end).
  pose proof (N_ascii_bounded c) as Hc.
  rewrite !hexValue_hexDigit.
  - by rewrite ascii_nibbles.
  - apply N.mod_lt. lia.
  - apply N.Div0.div_lt_upper_bound. lia.
Qed.

Lemma unreserved_not_percent (c : ascii) :
  JS.unreserved c = true → c ≠ "%"%char.
Proof. intros H ->. vm_compute in H. discriminate. Qed.

Lemma percentDecode_plain (c : ascii) (rest : string) :
  c ≠ "%"%char →
  JS.percentDecode (String c rest) = String c <$> JS.percentDecode rest.
Proof.
  intros Hc. destruct c as [[] [] [] [] [] [] [] []]; try reflexivity.
  by destruct Hc.
Qed.

(** Decoding undoes encoding, for every string. *)
Lemma percentDecode_encodeURIComponent (s : string) :
  JS.percentDecode (JS.encodeURIComponent s) = Some s.
Proof.
  induction s as [|c s IH]; [reflexivity|].
  cbn [JS.encodeURIComponent].
  destruct (JS.unreserved c) eqn:Hc.
  - change (String c "" +:+ ?r) with (String c r).
    rewrite percentDecode_plain by by apply unreserved_not_percent.
    by rewrite IH.
  - by rewrite percentDecode_escape, IH.
Qed.

(** ** Substrings *)

Lemma append_nil_l (b : string) : "" +:+ b = b.
Proof. reflexivity. Qed.

Lemma append_cons (c : ascii) (a b : string) :
  String c a +:+ b = String c (a +:+ b).
Proof. reflexivity. Qed.

Lemma prefix_append (needle hay : string) :
  String.prefix needle hay = true ↔ ∃ b, hay = needle +:+ b.
Proof.
  revert hay. induction needle as [|c needle IH]; intros hay.
  - split; [intros _; by exists hay|by destruct hay].
  - destruct hay as [|d hay].
    + split; [discriminate|]. intros [b Hb]. discriminate.
    + change (String.prefix (String c needle) (String d hay))
        with (if Ascii.ascii_dec c d then String.prefix needle hay else false).
      setoid_rewrite append_cons.
      destruct (Ascii.ascii_dec c d) as [->|Hne].
      * rewrite IH. split; intros [b Hb]; exists b; congruence.
      * split; [discriminate|]. intros [b Hb]. congruence.
Qed.

Lemma includes_nil (needle : string) :
  JS.includes "" needle = String.prefix needle "".
Proof. apply orb_false_r. Qed.

Lemma includes_cons (c : ascii) (hay needle : string) :
  JS.includes (String c hay) needle =
  String.prefix needle (String c hay) || JS.includes hay needle.
Proof. reflexivity. Qed.

(** [includes] finds exactly the contiguous occurrences. *)
Lemma includes_occurs (hay needle : string) :
  JS.includes hay needle = true ↔ ∃ a b, hay = a +:+ needle +:+ b.
Proof.
  induction hay as [|c hay IH].
  - rewrite includes_nil, prefix_append. split.
    + intros [b Hb]. by exists "", b.
    + intros ([|??] & b & Hb); [by exists b|discriminate].
  - rewrite includes_cons, orb_true_iff, prefix_append, IH. split.
    + intros [[b Hb]|(a & b & Hb)].
      * by exists "", b.
      * exists (String c a), b. by rewrite append_cons, Hb.
    + intros ([|d a] & b & Hb).
      * left. by exists b.
      * right. exists a, b. rewrite append_cons in Hb. congruence.
Qed.

Lemma append_assoc (a b c : string) : (a +:+ b) +:+ c = a +:+ (b +:+ c).
Proof.
  induction a as [|x a IH]; [done|]. by rewrite !append_cons, IH.
Qed.

Lemma chars_append (a b : string) :
  list_ascii_of_string (a +:+ b) =
  list_ascii_of_string a ++ list_ascii_of_string b.
Proof.
  induction a as [|x a IH]; [done|].
  rewrite append_cons. cbn [list_ascii_of_string]. by rewrite IH.
Qed.

Lemma hexDigit_unreserved (n : N) :
  (n < 16)%N → JS.unreserved (JS.hexDigit n) = true.
Proof.
  intros Hn.
  assert (Hcases : n ∈ (N.of_nat <$> seq 0 16)).
  { apply list_elem_of_fmap. exists (N.to_nat n). split; [lia|].
    apply elem_of_seq. lia. }
  cbn in Hcases.
  repeat (apply elem_of_cons in Hcases as [->|Hcases]; [vm_compute; reflexivity|]).
  by apply elem_of_nil in Hcases.
Qed.

(** The characters [encodeURIComponent] puts out are unreserved marks and
    the percent sign, nothing else. *)
Lemma encodeURIComponent_chars (s : string) :
  Forall (λ c, JS.unreserved c = true ∨ c = "%"%char)
         (list_ascii_of_string (JS.encodeURIComponent s)).
Proof.
  induction s as [|c s IH]; [constructor|].
  cbn [JS.encodeURIComponent]. rewrite chars_append.
  apply Forall_app_2; [|done]. destruct (JS.unreserved c) eqn:Hc.
  - apply Forall_cons_2; [by left|constructor].
  - unfold JS.escape. cbn [list_ascii_of_string].
    pose proof (N_ascii_bounded c).
    repeat apply Forall_cons_2; [| | |constructor].
    + by right.
    + left. apply hexDigit_unreserved. apply N.Div0.div_lt_upper_bound. lia.
    + left. apply hexDigit_unreserved. apply N.mod_lt. lia.
Qed.

(** Encoding goes through a concatenation piece by piece. *)
Lemma encodeURIComponent_app (a b : string) :
  JS.encodeURIComponent (a +:+ b) =
  JS.encodeURIComponent a +:+ JS.encodeURIComponent b.
Proof.
  induction a as [|x a IH]; [done|].
  rewrite append_cons. cbn [JS.encodeURIComponent].
  by rewrite IH, append_assoc.
Qed.

(** A text of unreserved marks only is its own encoding. *)
Lemma encodeURIComponent_unreserved (s : string) :
  Forall (λ c, JS.unreserved c = true) (list_ascii_of_string s) →
  JS.encodeURIComponent s = s.
Proof.
  induction s as [|c s IH]; [done|].
  cbn [list_ascii_of_string JS.encodeURIComponent].
  intros [Hc Hs]%Forall_cons. by rewrite Hc, IH.
Qed.

(** ** Arrays built by [Array.from] *)

Lemma arrayFrom_succ (n : Z) : JS.arrayFrom n (λ i, i + 1) = seqZ 1 n.
Proof. reflexivity. Qed.

Lemma arrayFrom_offset (n a : Z) : JS.arrayFrom n (λ i, a + i) = seqZ a n.
Proof.
  unfold JS.arrayFrom, seqZ. apply list_fmap_ext. intros _ i _. lia.
Qed.

(** ** The loop of [loadItemsBatch] *)

Lemma fresh_elem_of (itemIds : list Z) (loaded : gset Z) (x : Z) :
  x ∈ fresh itemIds loaded → (x ∉ loaded) ∧ (x ∈ itemIds).
Proof.
  revert loaded. induction itemIds as [|y rest IH]; intros loaded; simpl.
  - intros H. by apply elem_of_nil in H.
  - destruct (decide (y ∈ loaded)).
    + intros [??]%IH. split; [done|by right].
    + intros [->|[Hx ?]%IH]%elem_of_cons.
      * split; [done|by left].
      * split; [set_solver|by right].
Qed.

Lemma fresh_NoDup (itemIds : list Z) (loaded : gset Z) :
  NoDup (fresh itemIds loaded).
Proof.
  revert loaded. induction itemIds as [|y rest IH]; intros loaded; simpl.
  - constructor.
  - destruct (decide (y ∈ loaded)); [apply IH|].
    constructor; [|apply IH].
    intros [Hy _]%fresh_elem_of. set_solver.
Qed.

Lemma fresh_union (itemIds : list Z) (loaded : gset Z) :
  loaded ∪ list_to_set (fresh itemIds loaded) = loaded ∪ list_to_set itemIds.
Proof.
  revert loaded. induction itemIds as [|y rest IH]; intros loaded; simpl.
  - done.
  - destruct (decide (y ∈ loaded)).
    + rewrite IH. set_solver.
    + specialize (IH (loaded ∪ {[y]})). set_solver.
Qed.

Lemma fresh_loaded (itemIds : list Z) (loaded : gset Z) :
  (∀ x, x ∈ itemIds → x ∈ loaded) → fresh itemIds loaded = [].
Proof.
  intros H. destruct (fresh itemIds loaded) as [|x l] eqn:E; [done|].
  destruct (fresh_elem_of itemIds loaded x) as [Hx Hin].
  - rewrite E. by left.
  - by destruct Hx; apply H.
Qed.

(** ** Items, cards and their identifiers *)

Lemma get_id (this : JewelleryItem.t) :
  JewelleryItem.get this "id" = JS.Number (JewelleryItem.id this).
Proof.
  unfold JewelleryItem.get, JewelleryItem.properties.
  by rewrite !lookup_insert_ne, lookup_insert_eq by done.
Qed.



Lemma get_undefined (this : JewelleryItem.t) (p : string) :
  p ∉ ["id"; "name"; "imageSrc"] → JewelleryItem.get this p = JS.Undefined.
Proof.
  intros Hp. unfold JewelleryItem.get, JewelleryItem.properties.
  rewrite !lookup_insert_ne, lookup_empty; [done|..];
    intros <-; apply Hp; repeat constructor.
Qed.

Lemma card_itemId_create (jewellery : JewelleryItem.t) :
  card_itemId (JewelleryGridManager.createJewelleryCard jewellery) =
  pretty (JewelleryItem.id jewellery).
Proof.
  unfold JewelleryGridManager.createJewelleryCard; cbn [card_itemId].
  by rewrite get_id.
Qed.

Lemma card_itemId_observe (g : list Card) :
  card_itemId <$> (JewelleryGridManager.observe <$> g) = card_itemId <$> g.
Proof. rewrite <- list_fmap_compose. by apply list_fmap_ext. Qed.

Lemma observe_idemp (c : Card) :
  JewelleryGridManager.observe (JewelleryGridManager.observe c) =
  JewelleryGridManager.observe c.
Proof. reflexivity. Qed.

Lemma cardsFor_length_ids (x : Z) (g : list Card) (ids : list Z) :
  card_itemId <$> g = pretty <$> ids →
  length (cardsFor x g) = length (filter (λ y, y = x) ids).
Proof.
  unfold cardsFor. revert ids.
  induction g as [|c g IH]; intros [|y ids]; try done.
  intros [= Hc Hg]. rewrite !filter_cons.
  destruct (decide (card_itemId c = pretty x)) as [Hcx|Hcx];
    destruct (decide (y = x)) as [Hyx|Hyx]; cbn; rewrite ?(IH ids Hg); try done.
  - destruct Hyx. apply (inj pretty). congruence.
  - destruct Hcx. congruence.
Qed.

Lemma filter_eq_NoDup (x : Z) (ids : list Z) :
  NoDup ids →
  length (filter (λ y, y = x) ids) = if decide (x ∈ ids) then 1%nat else 0%nat.
Proof.
  induction 1 as [|y ids Hy Hnd IH]; [done|].
  rewrite filter_cons. destruct (decide (y = x)) as [->|Hne]; cbn.
  - rewrite IH. rewrite decide_False by done.
    rewrite decide_True by (by left). done.
  - rewrite IH. destruct (decide (x ∈ ids)) as [Hin|Hin].
    + rewrite decide_True by (by right). done.
    + rewrite decide_False; [done|]. intros [->|?]%elem_of_cons; done.
Qed.

Lemma cardsFor_observe (x : Z) (g : list Card) :
  length (cardsFor x (JewelleryGridManager.observe <$> g)) = length (cardsFor x g).
Proof.
  unfold cardsFor. induction g as [|c g IH]; [done|].
  rewrite fmap_cons, !filter_cons. cbn [JewelleryGridManager.observe card_itemId].
  destruct (decide (card_itemId c = pretty x)); cbn; by rewrite IH.
Qed.

(** A rendered state shows one card for each loaded identifier and none for
    the others. *)
Lemma rendered_cardsFor (s : State) (g : list Card) (x : Z) :
  rendered s → grid s = Some g →
  length (cardsFor x g) = if decide (x ∈ loadedItems s) then 1%nat else 0%nat.
Proof.
  intros Hr Hg. destruct (Hr g Hg) as (ids & Hids & Hnd & Hset).
  rewrite (cardsFor_length_ids x g ids Hids), filter_eq_NoDup by done.
  rewrite <- Hset. destruct (decide (x ∈ ids)).
  - rewrite decide_True; [done|set_solver].
  - rewrite decide_False; [done|set_solver].
Qed.

Lemma rendered_NoDup (s : State) (g : list Card) :
  rendered s → grid s = Some g → NoDup (card_itemId <$> g).
Proof.
  intros Hr Hg. destruct (Hr g Hg) as (ids & -> & Hnd & _).
  by apply (NoDup_fmap_2 _).
Qed.

Section GridManager.
Variable cfg : Config.
Variable names : list string.

Lemma fillFragment_run (itemIds : list Z) (fragment : list Card) (s : State) :
  JewelleryGridManager.fillFragment cfg names itemIds fragment s =
  (Normal (fragment ++ (newCard cfg names <$> fresh itemIds (loadedItems s))),
   set_loadedItems (loadedItems s ∪ list_to_set itemIds) s).
Proof.
  revert fragment s. induction itemIds as [|x rest IH]; intros fragment s.
  - simpl. rewrite app_nil_r. unfold mret, M_ret, ret.
    f_equal. destruct s; unfold set_loadedItems; simpl. f_equal. set_solver.
  - cbn [JewelleryGridManager.fillFragment fresh].
    unfold mbind, M_bind, bind, get, modify.
    destruct (decide (x ∈ loadedItems s)) as [Hx|Hx].
    + rewrite IH.
      replace (loadedItems s ∪ list_to_set (x :: rest))
        with (loadedItems s ∪ list_to_set rest) by set_solver.
      reflexivity.
    + rewrite IH. cbn. rewrite <- app_assoc.
      replace (loadedItems s ∪ ({[x]} ∪ list_to_set rest))
        with (loadedItems s ∪ {[x]} ∪ list_to_set rest) by set_solver.
      reflexivity.
Qed.

(** What a batch load does: the state it leaves and how it completes. *)
Lemma loadItemsBatch_run (itemIds : list Z) (s : State) :
  JewelleryGridManager.loadItemsBatch cfg names itemIds s =
  match grid s with
  | Some g =>
      (Normal tt,
       set_grid (Some (JewelleryGridManager.observe <$>
                         (g ++ (newCard cfg names <$> fresh itemIds (loadedItems s)))))
         (set_loadedItems (loadedItems s ∪ list_to_set itemIds) s))
  | None =>
      (TypeError, set_loadedItems (loadedItems s ∪ list_to_set itemIds) s)
  end.
Proof.
  unfold JewelleryGridManager.loadItemsBatch, JewelleryGridManager.setupImageObservers.
  unfold mbind, M_bind, bind. rewrite fillFragment_run.
  unfold deref, modify. cbn. destruct (grid s); reflexivity.
Qed.

Lemma loadItemsBatch_loads (itemIds : list Z) (s : State) :
  loads cfg names itemIds s (exec (JewelleryGridManager.loadItemsBatch cfg names itemIds) s).
Proof.
  unfold exec, loads. rewrite loadItemsBatch_run.
  destruct (grid s) eqn:E; cbn; rewrite ?E; done.
Qed.

Lemma loadInitialItems_loads (s : State) :
  loads cfg names (initialBatch cfg) s (exec (JewelleryGridManager.loadInitialItems cfg names) s).
Proof.
  unfold exec, loads, JewelleryGridManager.loadInitialItems,
    JewelleryGridManager.showLoading, JewelleryGridManager.updateViewMoreButton.
  unfold mbind, M_bind, bind, modify. rewrite loadItemsBatch_run.
  rewrite arrayFrom_succ.
  destruct s as [[g|] [li|] [vc|] ? ? ? ? ? ? ? ?]; split; reflexivity.
Qed.

Lemma loadInitialItems_container (s : State) (g : list Card) :
  grid s = Some g →
  let s' := exec (JewelleryGridManager.loadInitialItems cfg names) s in
  viewMoreContainer s' = toggled cfg s' <$> viewMoreContainer s.
Proof.
  unfold exec, toggled, JewelleryGridManager.loadInitialItems,
    JewelleryGridManager.showLoading, JewelleryGridManager.updateViewMoreButton.
  unfold mbind, M_bind, bind, modify. rewrite loadItemsBatch_run.
  destruct s as [[g'|] [li|] [vc|] ? ? ? ? ? ? ? ?]; intros [= ->]; reflexivity.
Qed.

(** A load-more call on a page without the button, or with the button
    disabled, changes nothing. *)
Lemma loadMoreItems_idle (s : State) :
  (∀ b, viewMoreBtn s = Some b → disabled b = true) →
  exec (JewelleryGridManager.loadMoreItems cfg names) s = s.
Proof.
  intros H. unfold exec, JewelleryGridManager.loadMoreItems.
  unfold mbind, M_bind, bind, deref, ret, throw.
  destruct (viewMoreBtn s) as [b|]; [|reflexivity].
  by rewrite (H b eq_refl).
Qed.

Lemma loadMoreItems_loads (s : State) (b : Button) :
  viewMoreBtn s = Some b → disabled b = false →
  loads cfg names (nextBatch cfg s) s (exec (JewelleryGridManager.loadMoreItems cfg names) s).
Proof.
  intros Hb Hd.
  unfold exec, loads, nextBatch, initialBatch, JewelleryGridManager.loadMoreItems,
    JewelleryGridManager.updateViewMoreButton.
  unfold mbind, M_bind, bind, deref, ret, throw, modify, get. rewrite Hb, Hd.
  rewrite loadItemsBatch_run. rewrite arrayFrom_offset.
  destruct s as [[g|] ? [vc|] ? ? ? ? ? ? ? ?]; split; reflexivity.
Qed.

Lemma loadMoreItems_container (s : State) (b : Button) (g : list Card) :
  viewMoreBtn s = Some b → disabled b = false → grid s = Some g →
  let s' := exec (JewelleryGridManager.loadMoreItems cfg names) s in
  viewMoreContainer s' = toggled cfg s' <$> viewMoreContainer s.
Proof.
  intros Hb Hd Hg.
  unfold exec, toggled, JewelleryGridManager.loadMoreItems,
    JewelleryGridManager.updateViewMoreButton.
  unfold mbind, M_bind, bind, deref, ret, throw, modify, get. rewrite Hb, Hd.
  rewrite loadItemsBatch_run. clear Hb.
  destruct s as [[g'|] ? [vc|] ? ? ? ? ? ? ? ?]; try discriminate; reflexivity.
Qed.

(** Either way, a load-more call loads some batch, possibly none. *)
Lemma loadMoreItems_cases (s : State) :
  let s' := exec (JewelleryGridManager.loadMoreItems cfg names) s in
  s' = s ∨ loads cfg names (nextBatch cfg s) s s'.
Proof.
  destruct (viewMoreBtn s) as [b|] eqn:Hb.
  - destruct (disabled b) eqn:Hd.
    + left. apply loadMoreItems_idle. intros b'. rewrite Hb. by intros [= <-].
    + right. by eapply loadMoreItems_loads.
  - left. apply loadMoreItems_idle. intros b'. by rewrite Hb.
Qed.

(** *** Invariants of a batch load *)

Lemma loads_subseteq (batch : list Z) (s s' : State) :
  loads cfg names batch s s' → loadedItems s ⊆ loadedItems s'.
Proof. intros [-> _]. set_solver. Qed.

Lemma loads_size (batch : list Z) (s s' : State) :
  loads cfg names batch s s' →
  (size (loadedItems s) ≤ size (loadedItems s'))%nat.
Proof. intros H. by eapply subseteq_size, loads_subseteq. Qed.

Lemma loads_rendered (batch : list Z) (s s' : State) :
  loads cfg names batch s s' → rendered s → rendered s'.
Proof.
  intros [HL Hg] Hr g' Hg'. rewrite Hg in Hg'.
  destruct (grid s) as [g|] eqn:E; [|done]. injection Hg' as <-.
  destruct (Hr g E) as (ids & Hids & Hnd & Hset).
  exists (ids ++ fresh batch (loadedItems s)). split_and!.
  - rewrite card_itemId_observe, !fmap_app, Hids. f_equal.
    rewrite <- list_fmap_compose. apply list_fmap_ext. intros _ x _.
    apply card_itemId_create.
  - apply NoDup_app. split_and!; [done| |apply fresh_NoDup].
    intros x Hx [Hfresh _]%fresh_elem_of. set_solver.
  - rewrite list_to_set_app_L, Hset, HL. apply fresh_union.
Qed.

Lemma loads_skip (batch : list Z) (s s' : State) :
  loads cfg names batch s s' → (∀ x, x ∈ batch → x ∈ loadedItems s) →
  loadedItems s' = loadedItems s ∧
  grid s' = (λ g : list Card, JewelleryGridManager.observe <$> g) <$> grid s.
Proof.
  intros [HL Hg] Hin. split.
  - rewrite HL. set_solver.
  - rewrite Hg, fresh_loaded by done. destruct (grid s); [|done].
    cbn. by rewrite app_nil_r.
Qed.

End GridManager.

(** A property of cards that [observe] keeps and every new card has holds of
    all the cards of a reachable grid. *)
Lemma loads_cards_Forall (cfg : Config) (names : list string)
    (P : Card → Prop) (batch : list Z) (s s' : State) :
  (∀ c, P c → P (JewelleryGridManager.observe c)) →
  (∀ x, P (newCard cfg names x)) →
  loads cfg names batch s s' →
  Forall P (cards s) → Forall P (cards s').
Proof.
  intros Hobs Hnew [_ Hg]. unfold cards. rewrite Hg.
  destruct (grid s) as [g|]; [|done].
  change (Forall P g →
          Forall P (JewelleryGridManager.observe <$>
                      g ++ (newCard cfg names <$> fresh batch (loadedItems s)))).
  intros HP. apply Forall_fmap, Forall_app. split.
  - eapply Forall_impl; [exact HP|]. intros c. apply Hobs.
  - apply Forall_fmap, Forall_forall. intros x _. apply Hobs, Hnew.
Qed.

Lemma reachable_cards_Forall (cfg : Config) (names : list string)
    (P : Card → Prop) :
  (∀ c, P c → P (JewelleryGridManager.observe c)) →
  (∀ x, P (newCard cfg names x)) →
  ∀ s, reachable cfg names s → Forall P (cards s).
Proof.
  intros Hobs Hnew s. induction 1 as [page Hpage|s _ IH|s _ IH].
  - change (cards (JewelleryGridManager.new page)) with (cards page).
    rewrite Hpage. constructor.
  - eapply loads_cards_Forall; [done..|apply loadInitialItems_loads|done].
  - destruct (loadMoreItems_cases cfg names s) as [->|Hl]; [done|].
    by eapply loads_cards_Forall.
Qed.

(** * The image resolver *)

Lemma roundDouble_safe (z : Z) :
  Z.abs z ≤ 2 ^ 53 → JS.roundDouble z = z.
Proof.
  intros Hz. unfold JS.roundDouble.
  by rewrite (proj2 (Z.leb_le _ _)) by done.
Qed.

Lemma roundDouble_nonneg (z : Z) : 0 ≤ z → 0 ≤ JS.roundDouble z.
Proof.
  intros Hz. unfold JS.roundDouble.
  destruct (Z.abs z <=? 2 ^ 53) eqn:E; [done|].
  apply Z.leb_gt in E.
  assert (0 < z) as Hpos by lia.
  rewrite (Z.sgn_pos z) by done. rewrite Z.mul_1_l.
  set (e := Z.log2 (Z.abs z) - 52).
  assert (0 < 2 ^ e) as He.
  { apply Z.pow_pos_nonneg; [lia|]. subst e.
    assert (53 ≤ Z.log2 (Z.abs z)); [|lia].
    apply Z.log2_le_pow2; lia. }
  assert (0 ≤ Z.abs z / 2 ^ e) as Hq by (apply Z.div_pos; lia).
  apply Z.mul_nonneg_nonneg; [|lia].
  destruct (_ || _); lia.
Qed.

Lemma fallbackIndex_mod (cfg : Config) (id : Z) :
  1 ≤ id → id ≤ 2 ^ 53 → FALLBACK_IMAGES cfg ≠ [] →
  JewelleryImageManager.fallbackIndex cfg id =
  Some ((id - 1) `mod` Z.of_nat (length (FALLBACK_IMAGES cfg))).
Proof.
  intros Hid Hsafe Hne.
  unfold JewelleryImageManager.fallbackIndex, JS.rem, JS.sub.
  rewrite roundDouble_safe by lia.
  assert (0 < Z.of_nat (length (FALLBACK_IMAGES cfg))).
  { destruct (FALLBACK_IMAGES cfg); [done|]. cbn [length]. lia. }
  rewrite decide_False by lia. f_equal. apply Z.rem_mod_nonneg; lia.
Qed.

(** Whatever the size of a positive identifier, its fallback index lies
    within the list. *)
Lemma fallbackIndex_bounds (cfg : Config) (id : Z) :
  1 ≤ id → FALLBACK_IMAGES cfg ≠ [] →
  ∃ i, JewelleryImageManager.fallbackIndex cfg id = Some i ∧
       0 ≤ i < Z.of_nat (length (FALLBACK_IMAGES cfg)).
Proof.
  intros Hid Hne.
  unfold JewelleryImageManager.fallbackIndex, JS.rem, JS.sub.
  assert (0 < Z.of_nat (length (FALLBACK_IMAGES cfg))).
  { destruct (FALLBACK_IMAGES cfg); [done|]. cbn [length]. lia. }
  pose proof (roundDouble_nonneg (id - 1) ltac:(lia)) as Hr.
  rewrite decide_False by lia. eexists. split; [reflexivity|].
  rewrite Z.rem_mod_nonneg by lia. apply Z.mod_pos_bound. lia.
Qed.

Lemma getFallbackImage_mod (cfg : Config) (id : Z) :
  1 ≤ id → id ≤ 2 ^ 53 →
  JewelleryImageManager.getFallbackImage cfg id =
  FALLBACK_IMAGES cfg
    !! Z.to_nat ((id - 1) `mod` Z.of_nat (length (FALLBACK_IMAGES cfg))).
Proof.
  intros Hid Hsafe. unfold JewelleryImageManager.getFallbackImage.
  destruct (decide (FALLBACK_IMAGES cfg = [])) as [E|Hne].
  - unfold JewelleryImageManager.fallbackIndex. rewrite E. cbn.
    by rewrite lookup_nil.
  - rewrite fallbackIndex_mod by done. unfold JS.index.
    rewrite decide_True; [done|]. apply Z.mod_pos_bound.
    destruct (FALLBACK_IMAGES cfg); [done|]. cbn [length]. lia.
Qed.

(** C4: for a positive [id] up to [2 ^ 53], where the subtraction [id - 1] is
    exact, [getImageSrc] is the local path
    [BASE_PATH ++ IMAGE_PREFIX ++ id ++ ".jpg"] when [id <= TOTAL_IMAGES], and
    otherwise the fallback entry at index [(id - 1) mod length]; the fallback
    choice depends on [id] only, and with five fallback entries the
    identifiers 1 and 6 get the same entry. *)
Theorem C4_getImageSrc (cfg : Config) (id : Z) :
  1 ≤ id → id ≤ 2 ^ 53 →
  (id ≤ TOTAL_IMAGES cfg →
   JewelleryImageManager.getImageSrc cfg id =
   Some (BASE_PATH cfg +:+ IMAGE_PREFIX cfg +:+ pretty id +:+ ".jpg")) ∧
  (TOTAL_IMAGES cfg < id →
   JewelleryImageManager.getImageSrc cfg id =
   FALLBACK_IMAGES cfg
     !! Z.to_nat ((id - 1) `mod` Z.of_nat (length (FALLBACK_IMAGES cfg)))) ∧
  JewelleryImageManager.getFallbackImage cfg id =
    FALLBACK_IMAGES cfg
      !! Z.to_nat ((id - 1) `mod` Z.of_nat (length (FALLBACK_IMAGES cfg))) ∧
  (length (FALLBACK_IMAGES cfg) = 5%nat →
   JewelleryImageManager.getFallbackImage cfg 1 =
   JewelleryImageManager.getFallbackImage cfg 6).
Proof.
  intros Hid Hsafe. split_and!.
  - intros Hle. unfold JewelleryImageManager.getImageSrc.
    by rewrite decide_True.
  - intros Hgt. unfold JewelleryImageManager.getImageSrc.
    rewrite decide_False by lia. by apply getFallbackImage_mod.
  - by apply getFallbackImage_mod.
  - intros Hlen. rewrite !getFallbackImage_mod by lia. by rewrite Hlen.
Qed.

Lemma C4_getImageSrc_witness :
  1 ≤ 37 ∧ 37 ≤ 2 ^ 53 ∧
  JewelleryImageManager.getImageSrc JEWELLERY_CONFIG 37 =
  Some "https://images.unsplash.com/photo-1594576722512-582d5577dc56?ixlib=rb-4.0.3&auto=format&fit=crop&w=600&q=80".
Proof.
  split; [lia|]. split; [lia|].
  apply (proj1 (proj2
    (C4_getImageSrc JEWELLERY_CONFIG 37 ltac:(lia) ltac:(lia)))).
  vm_compute. reflexivity.
Defined.

(** C4, beyond the exact range: for the identifier [10 ^ 21] the subtraction
    [id - 1] rounds back to [10 ^ 21], a multiple of five, so the code returns
    the first fallback entry, while [(id - 1) mod 5] is 4 and names the
    last. *)
Lemma C4_large_id_counterexample :
  1 ≤ 10 ^ 21 ∧ TOTAL_IMAGES JEWELLERY_CONFIG < 10 ^ 21 ∧
  (10 ^ 21 - 1) `mod` Z.of_nat (length (FALLBACK_IMAGES JEWELLERY_CONFIG)) = 4 ∧
  JewelleryImageManager.fallbackIndex JEWELLERY_CONFIG (10 ^ 21) = Some 0 ∧
  JewelleryImageManager.getImageSrc JEWELLERY_CONFIG (10 ^ 21) =
    Some "https://images.unsplash.com/photo-1535632066927-ab7c9ab60908?ixlib=rb-4.0.3&auto=format&fit=crop&w=600&q=80" ∧
  FALLBACK_IMAGES JEWELLERY_CONFIG
    !! Z.to_nat ((10 ^ 21 - 1)
                 `mod` Z.of_nat (length (FALLBACK_IMAGES JEWELLERY_CONFIG))) =
    Some "https://images.unsplash.com/photo-1596944090625-7d7c2e6ab234?ixlib=rb-4.0.3&auto=format&fit=crop&w=600&q=80" ∧
  JewelleryImageManager.getImageSrc JEWELLERY_CONFIG (10 ^ 21) ≠
  FALLBACK_IMAGES JEWELLERY_CONFIG
    !! Z.to_nat ((10 ^ 21 - 1)
                 `mod` Z.of_nat (length (FALLBACK_IMAGES JEWELLERY_CONFIG))).
Proof.
  split_and!.
  - vm_compute. discriminate.
  - vm_compute. reflexivity.
  - vm_compute. reflexivity.
  - vm_compute. reflexivity.
  - vm_compute. reflexivity.
  - vm_compute. reflexivity.
  - vm_compute. discriminate.
Qed.

(** C10: for [id >= 1] (and a fallback list that is not empty) the fallback
    index lies within [0 .. length - 1], and [getFallbackImage] returns an
    entry of the list; for [id = 0] (and a list of two entries or more) the
    index is [-1] and the lookup finds nothing. *)
Theorem C10_fallback_index_in_bounds (cfg : Config) :
  FALLBACK_IMAGES cfg ≠ [] →
  (∀ id, 1 ≤ id →
    ∃ i url,
      JewelleryImageManager.fallbackIndex cfg id = Some i ∧
      0 ≤ i ≤ Z.of_nat (length (FALLBACK_IMAGES cfg)) - 1 ∧
      JewelleryImageManager.getFallbackImage cfg id = Some url ∧
      FALLBACK_IMAGES cfg !! Z.to_nat i = Some url ∧
      url ∈ FALLBACK_IMAGES cfg) ∧
  ((2 ≤ length (FALLBACK_IMAGES cfg))%nat →
    JewelleryImageManager.fallbackIndex cfg 0 = Some (-1) ∧
    JewelleryImageManager.getFallbackImage cfg 0 = None).
Proof.
  intros Hne. split.
  - intros id Hid.
    destruct (fallbackIndex_bounds cfg id Hid Hne) as (i & Hi & Hb).
    destruct (FALLBACK_IMAGES cfg !! Z.to_nat i) as [url|] eqn:E.
    + exists i, url. split_and!.
      * done.
      * lia.
      * lia.
      * unfold JewelleryImageManager.getFallbackImage. rewrite Hi.
        unfold JS.index. by rewrite decide_True by lia.
      * done.
      * by eapply list_elem_of_lookup_2.
    + apply lookup_ge_None in E. lia.
  - intros Hlen.
    assert (JewelleryImageManager.fallbackIndex cfg 0 = Some (-1)) as Hi.
    { unfold JewelleryImageManager.fallbackIndex, JS.rem, JS.sub.
      rewrite roundDouble_safe by (vm_compute; discriminate).
      rewrite decide_False by lia. f_equal.
      change (0 - 1) with (- (1)). rewrite Z.rem_opp_l by lia.
      rewrite Z.rem_small by lia. done. }
    split; [done|].
    unfold JewelleryImageManager.getFallbackImage. by rewrite Hi.
Qed.

Lemma C10_fallback_index_in_bounds_witness :
  FALLBACK_IMAGES JEWELLERY_CONFIG ≠ [] ∧
  (∃ i url,
      JewelleryImageManager.fallbackIndex JEWELLERY_CONFIG 8 = Some i ∧
      0 ≤ i ≤ Z.of_nat (length (FALLBACK_IMAGES JEWELLERY_CONFIG)) - 1 ∧
      JewelleryImageManager.getFallbackImage JEWELLERY_CONFIG 8 = Some url ∧
      FALLBACK_IMAGES JEWELLERY_CONFIG !! Z.to_nat i = Some url ∧
      url ∈ FALLBACK_IMAGES JEWELLERY_CONFIG) ∧
  JewelleryImageManager.getFallbackImage JEWELLERY_CONFIG 0 = None.
Proof.
  assert (FALLBACK_IMAGES JEWELLERY_CONFIG ≠ []) as Hne by discriminate.
  split_and!.
  - exact Hne.
  - apply (proj1 (C10_fallback_index_in_bounds JEWELLERY_CONFIG Hne) 8). lia.
  - apply (proj2 (C10_fallback_index_in_bounds JEWELLERY_CONFIG Hne)).
    cbn. lia.
Defined.

(** * The item model *)






(** C8 (as the script has it): [getWhatsAppMessage] returns the sentence
    ["Hi Sisters Sparkles, I'm interested in buying <name>. Please share
    details and price."] already percent-encoded: the blanks are [%20], the
    comma is [%2C], and the name is encoded with the rest.  The result has
    only unreserved marks and percent signs in it, it is never the plain
    sentence, decoding it gives the plain sentence back, and the plain
    sentence contains the name; a name of unreserved marks only stands in the
    result as it is. *)
Theorem C8_getWhatsAppMessage_encoded (this : JewelleryItem.t) :
  JewelleryItem.getWhatsAppMessage this =
    "Hi%20Sisters%20Sparkles%2C%20I'm%20interested%20in%20buying%20"
    +:+ JS.encodeURIComponent (JewelleryItem.name this)
    +:+ ".%20Please%20share%20details%20and%20price." ∧
  JS.percentDecode (JewelleryItem.getWhatsAppMessage this) =
    Some ("Hi Sisters Sparkles, I'm interested in buying "
          +:+ JewelleryItem.name this
          +:+ ". Please share details and price.") ∧
  JS.includes ("Hi Sisters Sparkles, I'm interested in buying "
               +:+ JewelleryItem.name this
               +:+ ". Please share details and price.")
              (JewelleryItem.name this) = true ∧
  Forall (λ c, JS.unreserved c = true ∨ c = "%"%char)
         (list_ascii_of_string (JewelleryItem.getWhatsAppMessage this)) ∧
  JewelleryItem.getWhatsAppMessage this ≠
    "Hi Sisters Sparkles, I'm interested in buying "
    +:+ JewelleryItem.name this +:+ ". Please share details and price." ∧
  JS.includes (JewelleryItem.getWhatsAppMessage this) "%20" = true ∧
  (Forall (λ c, JS.unreserved c = true)
          (list_ascii_of_string (JewelleryItem.name this)) →
   JewelleryItem.getWhatsAppMessage this =
     "Hi%20Sisters%20Sparkles%2C%20I'm%20interested%20in%20buying%20"
     +:+ JewelleryItem.name this
     +:+ ".%20Please%20share%20details%20and%20price.").
Proof.
  assert (JewelleryItem.getWhatsAppMessage this =
          "Hi%20Sisters%20Sparkles%2C%20I'm%20interested%20in%20buying%20"
          +:+ JS.encodeURIComponent (JewelleryItem.name this)
          +:+ ".%20Please%20share%20details%20and%20price.") as Henc.
  { unfold JewelleryItem.getWhatsAppMessage, JewelleryItem.sentence.
    by rewrite !encodeURIComponent_app. }
  split_and!.
  - exact Henc.
  - apply percentDecode_encodeURIComponent.
  - apply includes_occurs.
    by exists "Hi Sisters Sparkles, I'm interested in buying ",
              ". Please share details and price.".
  - apply encodeURIComponent_chars.
  - rewrite Henc. discriminate.
  - rewrite Henc. apply includes_occurs.
    by exists "Hi",
              ("Sisters%20Sparkles%2C%20I'm%20interested%20in%20buying%20"
               +:+ JS.encodeURIComponent (JewelleryItem.name this)
               +:+ ".%20Please%20share%20details%20and%20price.").
  - intros Hname. rewrite Henc. by rewrite encodeURIComponent_unreserved.
Qed.

Lemma C8_getWhatsAppMessage_encoded_witness :
  Forall (λ c, JS.unreserved c = true)
    (list_ascii_of_string
       (JewelleryItem.name
          (JewelleryItem.new JEWELLERY_CONFIG JEWELLERY_NAMES 5))) ∧
  JewelleryItem.getWhatsAppMessage
    (JewelleryItem.new JEWELLERY_CONFIG JEWELLERY_NAMES 5) =
  "Hi%20Sisters%20Sparkles%2C%20I'm%20interested%20in%20buying%20Jewellery.%20Please%20share%20details%20and%20price.".
Proof.
  assert (Forall (λ c, JS.unreserved c = true)
            (list_ascii_of_string
               (JewelleryItem.name
                  (JewelleryItem.new JEWELLERY_CONFIG JEWELLERY_NAMES 5))))
    as Hname.
  { vm_compute. repeat constructor. }
  split; [exact Hname|].
  exact (proj2 (proj2 (proj2 (proj2 (proj2 (proj2
           (C8_getWhatsAppMessage_encoded
              (JewelleryItem.new JEWELLERY_CONFIG JEWELLERY_NAMES 5)))))))
           Hname).
Defined.

(** C8, as first worded, fails at item 37: the returned text is not the plain
    sentence, its blanks are escapes, and the item's name does not occur in
    it. *)
Lemma C8_not_encoded_counterexample :
  let item := JewelleryItem.new JEWELLERY_CONFIG JEWELLERY_NAMES 37 in
  JewelleryItem.name item = "Jewellery Item 37" ∧
  JewelleryItem.getWhatsAppMessage item =
    "Hi%20Sisters%20Sparkles%2C%20I'm%20interested%20in%20buying%20Jewellery%20Item%2037.%20Please%20share%20details%20and%20price." ∧
  JewelleryItem.getWhatsAppMessage item ≠
    "Hi Sisters Sparkles, I'm interested in buying Jewellery Item 37. Please share details and price." ∧
  JS.includes (JewelleryItem.getWhatsAppMessage item) "%20" = true ∧
  JS.includes (JewelleryItem.getWhatsAppMessage item)
              (JewelleryItem.name item) = false.
Proof. vm_compute. split_and!; [reflexivity..|discriminate|reflexivity|reflexivity]. Qed.

(** C9: an item has no [netlifyImageUrl] property, so the card built from it
    carries the text ["undefined"] in its [data-netlify-src] attribute,
    whatever the item; and so does every card of every reachable grid. *)
Theorem C9_netlify_src_undefined (cfg : Config) (names : list string) :
  (∀ jewellery : JewelleryItem.t,
     JewelleryItem.properties jewellery !! "netlifyImageUrl" = None ∧
     JewelleryItem.get jewellery "netlifyImageUrl" = JS.Undefined ∧
     card_button (JewelleryGridManager.createJewelleryCard jewellery)
       !! "netlifySrc" = Some "undefined") ∧
  (∀ (s : State) (c : Card),
     reachable cfg names s → c ∈ cards s →
     card_button c !! "netlifySrc" = Some "undefined").
Proof.
  assert (∀ jewellery : JewelleryItem.t,
            JewelleryItem.properties jewellery !! "netlifyImageUrl" = None) as Hp.
  { intros jewellery. unfold JewelleryItem.properties.
    by rewrite !lookup_insert_ne, lookup_empty by done. }
  assert (∀ jewellery : JewelleryItem.t,
            card_button (JewelleryGridManager.createJewelleryCard jewellery)
              !! "netlifySrc" = Some "undefined") as Hcard.
  { intros jewellery.
    unfold JewelleryGridManager.createJewelleryCard; cbn [card_button].
    rewrite lookup_insert_eq. unfold JewelleryItem.get. by rewrite Hp. }
  split.
  - intros jewellery. split_and!; [done| |done].
    unfold JewelleryItem.get. by rewrite Hp.
  - intros s c Hs Hc.
    pose proof (reachable_cards_Forall cfg names
                  (λ c, card_button c !! "netlifySrc" = Some "undefined")
                  (λ c H, H) (λ x, Hcard _) s Hs) as Hall.
    rewrite Forall_forall in Hall. by apply Hall.
Qed.

Lemma C9_netlify_src_undefined_witness :
  let s := exec (JewelleryGridManager.loadInitialItems JEWELLERY_CONFIG JEWELLERY_NAMES)
             (JewelleryGridManager.new JewelleryGridManager.page) in
  let c := newCard JEWELLERY_CONFIG JEWELLERY_NAMES 3 in
  reachable JEWELLERY_CONFIG JEWELLERY_NAMES s ∧
  JewelleryGridManager.observe c ∈ cards s ∧
  card_button (JewelleryGridManager.observe c) !! "netlifySrc" = Some "undefined".
Proof.
  intros s c.
  assert (reachable JEWELLERY_CONFIG JEWELLERY_NAMES s) as Hs.
  { apply reach_initial, reach_new. reflexivity. }
  assert (JewelleryGridManager.observe c ∈ cards s) as Hc.
  { apply list_elem_of_lookup. exists 2%nat. vm_compute. reflexivity. }
  split_and!; [exact Hs|exact Hc|].
  exact (proj2 (C9_netlify_src_undefined JEWELLERY_CONFIG JEWELLERY_NAMES)
           s _ Hs Hc).
Defined.

(** * The buy handler *)

(** C6: a click on the buy button of item 5, named "Jewellery", on a page
    that has the four dialog elements, sets the dialog's link to
    [https://wa.me/917436053004?text=] followed by the percent-encoded
    message, spelled out below with its escapes; the text has only unreserved
    marks and percent signs in it, and decoding it gives the message of the
    template, which contains ["Item #5"], the name, and the image URL
    [https://sister-sparkles.netlify.app/images/jewel-5.jpg]. *)
Theorem C6_buy_link (s : State) (button : gmap string string)
    (modal : gset string) (item : string) (image : ModalImage) (link : string) :
  button !! "itemId" = Some "5" →
  button !! "itemName" = Some "Jewellery" →
  buyNowModal s = Some modal →
  modalItem s = Some item →
  modalImage s = Some image →
  modalWhatsappLink s = Some link →
  ∃ text message : string,
    modalWhatsappLink (exec (JewelleryGridManager.handleWhatsAppClick button) s)
      = Some ("https://wa.me/917436053004?text=" +:+ text) ∧
    text = "Hi%20Sisters%20Sparkles!%20%0A%0AI'm%20interested%20in%20buying%20this%20jewellery%20from%20your%20exhibition%3A%0A%0A%20*Jewellery*%0A%20*Image%3A*%20https%3A%2F%2Fsister-sparkles.netlify.app%2Fimages%2Fjewel-5.jpg%0A%20*Item%20%235*%0A%0APlease%20share%20price%20and%20availability.%20Thank%20you!" ∧
    message =
      "Hi Sisters Sparkles! " +:+ String "010" (String "010"
      "I'm interested in buying this jewellery from your exhibition:")
      +:+ String "010" (String "010" " *Jewellery*")
      +:+ String "010"
            " *Image:* https://sister-sparkles.netlify.app/images/jewel-5.jpg"
      +:+ String "010" " *Item #5*"
      +:+ String "010" (String "010"
            "Please share price and availability. Thank you!") ∧
    text = JS.encodeURIComponent message ∧
    JS.percentDecode text = Some message ∧
    Forall (λ c, JS.unreserved c = true ∨ c = "%"%char)
           (list_ascii_of_string text) ∧
    JS.includes message "Item #5" = true ∧
    JS.includes message
      "https://sister-sparkles.netlify.app/images/jewel-5.jpg" = true ∧
    JS.includes message "Jewellery" = true.
Proof.
  intros Hid Hname Hmodal Hitem Himage Hlink.
  unfold exec, JewelleryGridManager.handleWhatsAppClick, modify.
  cbn [snd]. rewrite Hid, Hname, Hmodal, Hitem, Himage, Hlink.
  cbn [modalWhatsappLink set_dialog].
  exists (JS.encodeURIComponent
            (JewelleryGridManager.whatsAppText "Jewellery"
               (JewelleryGridManager.netlifyImageUrl "5") "5")),
         (JewelleryGridManager.whatsAppText "Jewellery"
            (JewelleryGridManager.netlifyImageUrl "5") "5").
  split_and!.
  - reflexivity.
  - vm_compute. reflexivity.
  - vm_compute. reflexivity.
  - reflexivity.
  - apply percentDecode_encodeURIComponent.
  - apply encodeURIComponent_chars.
  - vm_compute. reflexivity.
  - vm_compute. reflexivity.
  - vm_compute. reflexivity.
Qed.

Lemma C6_buy_link_witness :
  let button :=
    card_button (JewelleryGridManager.createJewelleryCard
                   (JewelleryItem.new JEWELLERY_CONFIG JEWELLERY_NAMES 5)) in
  button !! "itemId" = Some "5" ∧
  button !! "itemName" = Some "Jewellery" ∧
  ∃ text message : string,
    modalWhatsappLink
      (exec (JewelleryGridManager.handleWhatsAppClick button)
            JewelleryGridManager.page)
      = Some ("https://wa.me/917436053004?text=" +:+ text) ∧
    text = "Hi%20Sisters%20Sparkles!%20%0A%0AI'm%20interested%20in%20buying%20this%20jewellery%20from%20your%20exhibition%3A%0A%0A%20*Jewellery*%0A%20*Image%3A*%20https%3A%2F%2Fsister-sparkles.netlify.app%2Fimages%2Fjewel-5.jpg%0A%20*Item%20%235*%0A%0APlease%20share%20price%20and%20availability.%20Thank%20you!" ∧
    message =
      "Hi Sisters Sparkles! " +:+ String "010" (String "010"
      "I'm interested in buying this jewellery from your exhibition:")
      +:+ String "010" (String "010" " *Jewellery*")
      +:+ String "010"
            " *Image:* https://sister-sparkles.netlify.app/images/jewel-5.jpg"
      +:+ String "010" " *Item #5*"
      +:+ String "010" (String "010"
            "Please share price and availability. Thank you!") ∧
    text = JS.encodeURIComponent message ∧
    JS.percentDecode text = Some message ∧
    Forall (λ c, JS.unreserved c = true ∨ c = "%"%char)
           (list_ascii_of_string text) ∧
    JS.includes message "Item #5" = true ∧
    JS.includes message
      "https://sister-sparkles.netlify.app/images/jewel-5.jpg" = true ∧
    JS.includes message "Jewellery" = true.
Proof.
  intros button. split_and!.
  - vm_compute. reflexivity.
  - vm_compute. reflexivity.
  - apply (C6_buy_link JewelleryGridManager.page button
             {["hidden"]} "" {| modal_src := ""; modal_alt := "" |} "#").
    + vm_compute. reflexivity.
    + vm_compute. reflexivity.
    + reflexivity.
    + reflexivity.
    + reflexivity.
    + reflexivity.
Defined.

Example buy_link_5 :
  modalWhatsappLink
    (exec (JewelleryGridManager.handleWhatsAppClick
             (card_button (JewelleryGridManager.createJewelleryCard
                (JewelleryItem.new JEWELLERY_CONFIG JEWELLERY_NAMES 5))))
          JewelleryGridManager.page)
  = Some "https://wa.me/917436053004?text=Hi%20Sisters%20Sparkles!%20%0A%0AI'm%20interested%20in%20buying%20this%20jewellery%20from%20your%20exhibition%3A%0A%0A%20*Jewellery*%0A%20*Image%3A*%20https%3A%2F%2Fsister-sparkles.netlify.app%2Fimages%2Fjewel-5.jpg%0A%20*Item%20%235*%0A%0APlease%20share%20price%20and%20availability.%20Thank%20you!".
Proof. vm_compute. reflexivity. Qed.

(** * The grid controller *)

Section GridController.
Variable cfg : Config.
Variable names : list string.

Lemma elem_of_initialBatch (x : Z) :
  x ∈ initialBatch cfg ↔
  1 ≤ x ≤ Z.min (INITIAL_LOAD cfg) (TOTAL_IMAGES cfg).
Proof. unfold initialBatch. rewrite elem_of_seqZ. lia. Qed.

Lemma elem_of_nextBatch (s : State) (x : Z) :
  x ∈ nextBatch cfg s ↔
  Z.of_nat (size (loadedItems s)) + 1 ≤ x
    ≤ Z.min (Z.of_nat (size (loadedItems s)) + BATCH_SIZE cfg)
            (TOTAL_IMAGES cfg).
Proof. unfold nextBatch. rewrite elem_of_seqZ. lia. Qed.

Lemma size_union_list (X : gset Z) (l : list Z) :
  (size (X ∪ list_to_set l) ≤ size X + length l)%nat.
Proof.
  rewrite size_union_alt.
  assert (size (list_to_set l ∖ X : gset Z) ≤ size (list_to_set l : gset Z))%nat
    by (apply subseteq_size; set_solver).
  assert (size (list_to_set l : gset Z) ≤ length l)%nat; [|lia].
  clear. induction l as [|y l IH]; cbn.
  - by rewrite size_empty.
  - rewrite size_union_alt, size_singleton.
    assert (size (list_to_set l ∖ {[y]} : gset Z) ≤ size (list_to_set l : gset Z))%nat
      by (apply subseteq_size; set_solver).
    lia.
Qed.

(** One load-more call never takes the count past the larger of the count
    before and the total, whatever the state of the page. *)
Lemma loadMoreItems_size_bound (s : State) :
  Z.of_nat (size (loadedItems (exec (JewelleryGridManager.loadMoreItems cfg names) s))) ≤
  Z.max (Z.of_nat (size (loadedItems s))) (TOTAL_IMAGES cfg).
Proof.
  destruct (loadMoreItems_cases cfg names s) as [->|[-> _]]; [lia|].
  pose proof (size_union_list (loadedItems s) (nextBatch cfg s)) as H.
  unfold nextBatch in H at 2. rewrite length_seqZ in H. lia.
Qed.

Lemma loadMoreItems_iter_bound (s : State) (k : nat) :
  Z.of_nat (size (loadedItems (Nat.iter k (exec (JewelleryGridManager.loadMoreItems cfg names)) s))) ≤
  Z.max (Z.of_nat (size (loadedItems s))) (TOTAL_IMAGES cfg).
Proof.
  induction k as [|k IH]; [cbn; lia|]. rewrite Nat.iter_succ.
  etrans; [apply loadMoreItems_size_bound|]. lia.
Qed.

Lemma toggled_hidden (s' : State) (cl : gset string) :
  "hidden" ∈ toggled cfg s' cl ↔
  TOTAL_IMAGES cfg ≤ Z.of_nat (size (loadedItems s')).
Proof.
  unfold toggled, classList_toggle.
  destruct (bool_decide_reflect
    (Z.of_nat (size (loadedItems s')) < TOTAL_IMAGES cfg)); cbn.
  - split; [set_solver|lia].
  - split; [lia|set_solver].
Qed.

Lemma viewMoreHidden_toggled (s s' : State) :
  is_Some (viewMoreContainer s) →
  viewMoreContainer s' = toggled cfg s' <$> viewMoreContainer s →
  viewMoreHidden s' ↔ TOTAL_IMAGES cfg ≤ Z.of_nat (size (loadedItems s')).
Proof.
  intros [cl Hcl] Hs'. rewrite Hcl in Hs'. unfold viewMoreHidden.
  rewrite Hs'. cbn. rewrite <- toggled_hidden. split.
  - by intros (? & [= <-] & ?).
  - eauto.
Qed.

Lemma cards_ids_observe (s s' : State) :
  grid s' = (λ g : list Card, JewelleryGridManager.observe <$> g) <$> grid s →
  card_itemId <$> cards s' = card_itemId <$> cards s.
Proof.
  unfold cards. intros ->. destruct (grid s); [|done].
  cbn. apply card_itemId_observe.
Qed.

End GridController.

(** Reachable states are rendered states. *)
Lemma reachable_rendered (cfg : Config) (names : list string) (s : State) :
  reachable cfg names s → rendered s.
Proof.
  induction 1 as [page Hpage|s _ IH|s _ IH].
  - intros g Hg. exists []. unfold cards in Hpage.
    change (grid (JewelleryGridManager.new page)) with (grid page) in Hg.
    rewrite Hg in Hpage. cbn in Hpage. subst g. split_and!; [done|constructor|done].
  - eapply loads_rendered; [apply loadInitialItems_loads|done].
  - destruct (loadMoreItems_cases cfg names s) as [->|Hl]; [done|].
    by eapply loads_rendered.
Qed.

Lemma reachable_in_range (cfg : Config) (names : list string) (s : State) :
  reachable cfg names s →
  ∀ x, x ∈ loadedItems s → 1 ≤ x ≤ TOTAL_IMAGES cfg.
Proof.
  induction 1 as [page Hpage|s _ IH|s _ IH]; intros x.
  - cbn. set_solver.
  - destruct (loadInitialItems_loads cfg names s) as [-> _].
    rewrite elem_of_union, elem_of_list_to_set, elem_of_initialBatch.
    intros [?|?]; [by apply IH|lia].
  - destruct (loadMoreItems_cases cfg names s) as [->|[-> _]]; [by apply IH|].
    rewrite elem_of_union, elem_of_list_to_set, elem_of_nextBatch.
    intros [?|?]; [by apply IH|lia].
Qed.

(** C1: a load-more call (button present and enabled) adds exactly the
    identifiers from [size + 1] to [min (size + BATCH_SIZE) TOTAL_IMAGES] that
    are not loaded yet; once the count has reached the total it adds no
    identifier and no card; any number of calls leaves the count at most the
    total (or the count before, if that was larger); and after a load-more
    call, as after an initial load, the "load more" container is hidden
    exactly when the count has reached the total. *)
Theorem C1_loadMoreItems (cfg : Config) (names : list string)
    (s : State) (b : Button) :
  viewMoreBtn s = Some b → disabled b = false →
  let n := Z.of_nat (size (loadedItems s)) in
  let s' := exec (JewelleryGridManager.loadMoreItems cfg names) s in
  (∀ x, x ∈ loadedItems s' ↔
        x ∈ loadedItems s ∨
        n + 1 ≤ x ≤ Z.min (n + BATCH_SIZE cfg) (TOTAL_IMAGES cfg)) ∧
  (TOTAL_IMAGES cfg ≤ n →
     loadedItems s' = loadedItems s ∧
     card_itemId <$> cards s' = card_itemId <$> cards s) ∧
  (∀ k : nat,
     Z.of_nat (size (loadedItems
       (Nat.iter k (exec (JewelleryGridManager.loadMoreItems cfg names)) s)))
     ≤ Z.max n (TOTAL_IMAGES cfg)) ∧
  (is_Some (grid s) → is_Some (viewMoreContainer s) →
     (viewMoreHidden s' ↔
      TOTAL_IMAGES cfg ≤ Z.of_nat (size (loadedItems s')))) ∧
  (∀ s0, is_Some (grid s0) → is_Some (viewMoreContainer s0) →
     let s0' := exec (JewelleryGridManager.loadInitialItems cfg names) s0 in
     viewMoreHidden s0' ↔
     TOTAL_IMAGES cfg ≤ Z.of_nat (size (loadedItems s0'))).
Proof.
  intros Hb Hd n s'.
  pose proof (loadMoreItems_loads cfg names s b Hb Hd) as Hloads.
  fold s' in Hloads. split_and!.
  - intros x. destruct Hloads as [-> _].
    by rewrite elem_of_union, elem_of_list_to_set, elem_of_nextBatch.
  - intros Hfull.
    destruct (loads_skip cfg names _ _ _ Hloads) as [HL Hg].
    { intros x [? ?]%elem_of_nextBatch. fold n in H, H0. lia. }
    split; [done|]. by apply cards_ids_observe.
  - intros k. apply loadMoreItems_iter_bound.
  - intros [g Hg] Hc. apply (viewMoreHidden_toggled cfg s); [done|].
    by apply (loadMoreItems_container cfg names s b g).
  - intros s0 [g Hg] Hc s0'. apply (viewMoreHidden_toggled cfg s0); [done|].
    by apply (loadInitialItems_container cfg names s0 g).
Qed.

(** C2: an initial load on a new manager leaves exactly the identifiers
    [1 .. min INITIAL_LOAD TOTAL_IMAGES] loaded, and that many of them. *)
Theorem C2_loadInitialItems (cfg : Config) (names : list string) (page : State) :
  let s' := exec (JewelleryGridManager.loadInitialItems cfg names)
                 (JewelleryGridManager.new page) in
  let m := Z.min (INITIAL_LOAD cfg) (TOTAL_IMAGES cfg) in
  (∀ x, x ∈ loadedItems s' ↔ 1 ≤ x ≤ m) ∧
  loadedItems s' = list_to_set (seqZ 1 m) ∧
  Z.of_nat (size (loadedItems s')) = Z.max 0 m.
Proof.
  intros s' m.
  assert (loadedItems s' = list_to_set (seqZ 1 m)) as HL.
  { subst s'.
    destruct (loadInitialItems_loads cfg names (JewelleryGridManager.new page))
      as [-> _].
    cbn. unfold initialBatch. fold m. set_solver. }
  split_and!.
  - intros x. rewrite HL, elem_of_list_to_set, elem_of_seqZ. lia.
  - done.
  - rewrite HL, size_list_to_set by apply NoDup_seqZ.
    rewrite length_seqZ. lia.
Qed.

(** C3: in every state reached from a new manager by initial loads and
    load-more calls, the loaded identifiers lie in [1 .. TOTAL_IMAGES] and
    are listed once each, as are the cards rendered for them; and neither
    operation takes an identifier away, so the count never goes down. *)
Theorem C3_loadedItems_invariant (cfg : Config) (names : list string) (s : State) :
  reachable cfg names s →
  (∀ x, x ∈ loadedItems s → 1 ≤ x ≤ TOTAL_IMAGES cfg) ∧
  NoDup (elements (loadedItems s)) ∧
  NoDup (card_itemId <$> cards s) ∧
  (let s' := exec (JewelleryGridManager.loadInitialItems cfg names) s in
   loadedItems s ⊆ loadedItems s' ∧
   (size (loadedItems s) ≤ size (loadedItems s'))%nat) ∧
  (let s' := exec (JewelleryGridManager.loadMoreItems cfg names) s in
   loadedItems s ⊆ loadedItems s' ∧
   (size (loadedItems s) ≤ size (loadedItems s'))%nat).
Proof.
  intros Hs. split_and!.
  - by apply (reachable_in_range cfg names).
  - apply NoDup_elements.
  - unfold cards. destruct (grid s) as [g|] eqn:Hg; [|constructor].
    eapply rendered_NoDup; [by eapply reachable_rendered|done].
  - pose proof (loadInitialItems_loads cfg names s) as Hl.
    split; [by eapply loads_subseteq|by eapply loads_size].
  - destruct (loadMoreItems_cases cfg names s) as [->|Hl]; [done|].
    split; [by eapply loads_subseteq|by eapply loads_size].
Qed.

(** C5: from a state whose grid shows a card for [x] exactly when [x] is
    loaded (as every reachable state does), two batch loads of [[x]] leave [x]
    loaded, listed once, with one card; the second load adds nothing, and a
    load of an identifier that is already loaded completes normally without
    adding an identifier or a card. *)
Theorem C5_loadItemsBatch_idempotent (cfg : Config) (names : list string)
    (s : State) (g : list Card) (x : Z) :
  grid s = Some g →
  length (cardsFor x g) = (if decide (x ∈ loadedItems s) then 1 else 0)%nat →
  let s1 := exec (JewelleryGridManager.loadItemsBatch cfg names [x]) s in
  let s2 := exec (JewelleryGridManager.loadItemsBatch cfg names [x]) s1 in
  x ∈ loadedItems s2 ∧
  length (filter (λ y, y = x) (elements (loadedItems s2))) = 1%nat ∧
  length (cardsFor x (cards s2)) = 1%nat ∧
  loadedItems s2 = loadedItems s1 ∧
  card_itemId <$> cards s2 = card_itemId <$> cards s1 ∧
  (x ∈ loadedItems s →
     completion (JewelleryGridManager.loadItemsBatch cfg names [x]) s = Normal tt ∧
     loadedItems s1 = loadedItems s ∧
     card_itemId <$> cards s1 = card_itemId <$> cards s).
Proof.
  intros Hg Hcount s1 s2.
  pose proof (loadItemsBatch_loads cfg names [x] s) as Hl1. fold s1 in Hl1.
  pose proof (loadItemsBatch_loads cfg names [x] s1) as Hl2. fold s2 in Hl2.
  assert (x ∈ loadedItems s1) as Hx1.
  { destruct Hl1 as [-> _]. set_solver. }
  destruct (loads_skip cfg names _ _ _ Hl2) as [HL2 Hg2].
  { intros y Hy. apply list_elem_of_singleton in Hy. by subst y. }
  assert (length (cardsFor x (cards s1)) = 1%nat) as Hcards1.
  { destruct Hl1 as [_ Hg1]. unfold cards. rewrite Hg1, Hg.
    change (default [] (?f <$> Some g)) with (f g). cbv beta.
    rewrite cardsFor_observe. unfold cardsFor. rewrite filter_app, length_app.
    fold (cardsFor x g). rewrite Hcount. cbn [fresh].
    destruct (decide (x ∈ loadedItems s)); [done|].
    cbn [fmap list_fmap]. rewrite filter_cons_True; [done|].
    apply card_itemId_create. }
  split_and!.
  - by rewrite HL2.
  - rewrite filter_eq_NoDup by apply NoDup_elements.
    rewrite decide_True; [done|]. apply elem_of_elements. by rewrite HL2.
  - unfold cards in *. rewrite Hg2. destruct (grid s1) as [g1|]; [|done].
    change (length (cardsFor x (JewelleryGridManager.observe <$> g1)) = 1%nat).
    rewrite cardsFor_observe. exact Hcards1.
  - done.
  - by apply cards_ids_observe.
  - intros Hx. split_and!.
    + unfold completion. rewrite loadItemsBatch_run, Hg. done.
    + destruct Hl1 as [-> _]. set_solver.
    + destruct (loads_skip cfg names _ _ _ Hl1) as [_ Hg1].
      { intros y Hy. apply list_elem_of_singleton in Hy. by subst y. }
      by apply cards_ids_observe.
Qed.

Lemma C1_loadMoreItems_witness :
  let more := exec (JewelleryGridManager.loadMoreItems JEWELLERY_CONFIG JEWELLERY_NAMES) in
  let s := JewelleryGridManager.page in
  let n := Z.of_nat (size (loadedItems s)) in
  let full :=
    Nat.iter 4 more
      (exec (JewelleryGridManager.loadInitialItems JEWELLERY_CONFIG JEWELLERY_NAMES)
         (JewelleryGridManager.new JewelleryGridManager.page)) in
  viewMoreBtn s =
    Some {| disabled := false; textContent := "View More Jewellery" |} ∧
  (∀ x, x ∈ loadedItems (more s) ↔
        x ∈ loadedItems s ∨
        n + 1 ≤ x ≤ Z.min (n + BATCH_SIZE JEWELLERY_CONFIG)
                          (TOTAL_IMAGES JEWELLERY_CONFIG)) ∧
  (viewMoreHidden (more s) ↔
   TOTAL_IMAGES JEWELLERY_CONFIG ≤ Z.of_nat (size (loadedItems (more s)))) ∧
  TOTAL_IMAGES JEWELLERY_CONFIG ≤ Z.of_nat (size (loadedItems full)) ∧
  loadedItems (more full) = loadedItems full.
Proof.
  intros more s n full.
  pose proof (C1_loadMoreItems JEWELLERY_CONFIG JEWELLERY_NAMES s
                {| disabled := false; textContent := "View More Jewellery" |}
                eq_refl eq_refl) as (Hmem & _ & _ & Hhidden & _).
  assert (viewMoreBtn full =
          Some {| disabled := false; textContent := "View More Jewellery" |})
    as Hbtn by (vm_compute; reflexivity).
  assert (Z.of_nat (size (loadedItems full)) = 36) as Hsize
    by (vm_compute; reflexivity).
  assert (TOTAL_IMAGES JEWELLERY_CONFIG ≤ Z.of_nat (size (loadedItems full)))
    as Hfull by (rewrite Hsize; cbn; lia).
  pose proof (C1_loadMoreItems JEWELLERY_CONFIG JEWELLERY_NAMES full _
                Hbtn eq_refl) as (_ & Hnoop & _).
  split_and!.
  - reflexivity.
  - exact Hmem.
  - apply Hhidden; eexists; reflexivity.
  - exact Hfull.
  - exact (proj1 (Hnoop Hfull)).
Defined.

Lemma C3_loadedItems_invariant_witness :
  let s := exec (JewelleryGridManager.loadMoreItems JEWELLERY_CONFIG JEWELLERY_NAMES)
             (exec (JewelleryGridManager.loadInitialItems JEWELLERY_CONFIG JEWELLERY_NAMES)
                (JewelleryGridManager.new JewelleryGridManager.page)) in
  reachable JEWELLERY_CONFIG JEWELLERY_NAMES s ∧
  (∀ x, x ∈ loadedItems s → 1 ≤ x ≤ TOTAL_IMAGES JEWELLERY_CONFIG) ∧
  NoDup (card_itemId <$> cards s).
Proof.
  intros s.
  assert (reachable JEWELLERY_CONFIG JEWELLERY_NAMES s) as Hs.
  { apply reach_more, reach_initial, reach_new. reflexivity. }
  pose proof (C3_loadedItems_invariant JEWELLERY_CONFIG JEWELLERY_NAMES s Hs)
    as (Hrange & _ & Hcards & _).
  split_and!; [exact Hs|exact Hrange|exact Hcards].
Defined.

Lemma C5_loadItemsBatch_idempotent_witness :
  let batch := JewelleryGridManager.loadItemsBatch JEWELLERY_CONFIG JEWELLERY_NAMES [7] in
  let s := JewelleryGridManager.page in
  let s1 := exec batch s in
  let s2 := exec batch s1 in
  grid s = Some [] ∧
  length (cardsFor 7 []) = (if decide (7 ∈ loadedItems s) then 1%nat else 0%nat) ∧
  7 ∈ loadedItems s2 ∧
  length (cardsFor 7 (cards s2)) = 1%nat ∧
  7 ∈ loadedItems s1 ∧
  completion batch s1 = Normal tt.
Proof.
  intros batch s s1 s2.
  assert (length (cardsFor 7 []) =
          (if decide (7 ∈ loadedItems s) then 1%nat else 0%nat)) as Hcount.
  { vm_compute. reflexivity. }
  pose proof (C5_loadItemsBatch_idempotent JEWELLERY_CONFIG JEWELLERY_NAMES
                s [] 7 eq_refl Hcount) as (Hin & _ & Hone & HL & _).
  assert (grid s1 = Some (cards s1)) as Hg1 by (vm_compute; reflexivity).
  assert (length (cardsFor 7 (cards s1)) =
          (if decide (7 ∈ loadedItems s1) then 1%nat else 0%nat)) as Hcount1.
  { vm_compute. reflexivity. }
  assert (7 ∈ loadedItems s1) as Hin1
    by exact (eq_rect _ (λ L : gset Z, 7 ∈ L) Hin _ HL).
  pose proof (C5_loadItemsBatch_idempotent JEWELLERY_CONFIG JEWELLERY_NAMES
                s1 (cards s1) 7 Hg1 Hcount1) as (_ & _ & _ & _ & _ & Hskip).
  split_and!;
    [reflexivity|exact Hcount|exact Hin|exact Hone|exact Hin1|
     exact (proj1 (Hskip Hin1))].
Defined.

(** In every reachable state the premise of C5 about the cards holds. *)
Lemma reachable_cardsFor (cfg : Config) (names : list string)
    (s : State) (g : list Card) (x : Z) :
  reachable cfg names s → grid s = Some g →
  length (cardsFor x g) = (if decide (x ∈ loadedItems s) then 1 else 0)%nat.
Proof.
  intros Hs Hg. apply rendered_cardsFor; [|done].
  by eapply reachable_rendered.
Qed.

(** * The configured catalogue: 36 items, loaded 8 at a time *)

Example after_init :
  let s0 := exec (JewelleryGridManager.loadInitialItems JEWELLERY_CONFIG JEWELLERY_NAMES)
              (JewelleryGridManager.new JewelleryGridManager.page) in
  card_itemId <$> cards s0 = ["1"; "2"; "3"; "4"; "5"; "6"; "7"; "8"] ∧
  loadedItems s0 = list_to_set (seqZ 1 8) ∧
  viewMoreContainer s0 = Some ∅.
Proof. vm_compute. split_and!; reflexivity. Qed.

Example after_one_more :
  let more := exec (JewelleryGridManager.loadMoreItems JEWELLERY_CONFIG JEWELLERY_NAMES) in
  let s0 := exec (JewelleryGridManager.loadInitialItems JEWELLERY_CONFIG JEWELLERY_NAMES)
              (JewelleryGridManager.new JewelleryGridManager.page) in
  card_itemId <$> cards (more s0) = pretty <$> seqZ 1 16 ∧
  loadedItems (more s0) = list_to_set (seqZ 1 16).
Proof. vm_compute. split_and!; reflexivity. Qed.

Example after_four_more :
  let more := exec (JewelleryGridManager.loadMoreItems JEWELLERY_CONFIG JEWELLERY_NAMES) in
  let s0 := exec (JewelleryGridManager.loadInitialItems JEWELLERY_CONFIG JEWELLERY_NAMES)
              (JewelleryGridManager.new JewelleryGridManager.page) in
  let s4 := Nat.iter 4 more s0 in
  length (cards s4) = 36%nat ∧
  loadedItems s4 = list_to_set (seqZ 1 36) ∧
  viewMoreContainer s4 = Some {["hidden"]} ∧
  more s4 = s4.
Proof. cbv zeta. split_and!; vm_compute; reflexivity. Qed.

Example getImageSrc_5 :
  JewelleryImageManager.getImageSrc JEWELLERY_CONFIG 5 = Some "images/jewel-5.jpg".
Proof. vm_compute. reflexivity. Qed.

Example getFallbackImage_1_6 :
  JewelleryImageManager.getFallbackImage JEWELLERY_CONFIG 1 =
  JewelleryImageManager.getFallbackImage JEWELLERY_CONFIG 6.
Proof. vm_compute. reflexivity. Qed.

Example encodeURIComponent_marks :
  JS.encodeURIComponent "a b&c/d-_.!~*'()" = "a%20b%26c%2Fd-_.!~*'()".
Proof. vm_compute. reflexivity. Qed.

(** * Further properties of the image resolver and the item model *)

Lemma length_append (a b : string) :
  String.length (a +:+ b) = (String.length a + String.length b)%nat.
Proof.
  induction a as [|c a IH]; [done|].
  rewrite append_cons. cbn [String.length]. by rewrite IH.
Qed.

Lemma append_inj_l (a b s : string) : a +:+ s = b +:+ s → a = b.
Proof.
  revert b. induction a as [|c a IH]; intros [|d b] H.
  - done.
  - apply (f_equal String.length) in H.
    rewrite append_nil_l, length_append in H. cbn [String.length] in H. lia.
  - apply (f_equal String.length) in H.
    rewrite append_nil_l, length_append in H. cbn [String.length] in H. lia.
  - rewrite !append_cons in H. injection H as -> H. f_equal. by apply IH.
Qed.

(** An identifier at or below the total always has a local path, never
    [undefined]; for an identifier within [2 ^ 53] either side of zero, whose
    decimal text the template writes out in full, the path is
    [BASE_PATH ++ IMAGE_PREFIX ++ id ++ ".jpg"], a minus sign included for a
    negative one; and the paths of two identifiers differ when the
    identifiers do. *)
Theorem getImageSrc_local_inj (cfg : Config) (a b : Z) :
  a ≤ TOTAL_IMAGES cfg → b ≤ TOTAL_IMAGES cfg →
  is_Some (JewelleryImageManager.getImageSrc cfg a) ∧
  (Z.abs a ≤ 2 ^ 53 →
   JewelleryImageManager.getImageSrc cfg a =
   Some (BASE_PATH cfg +:+ IMAGE_PREFIX cfg +:+ pretty a +:+ ".jpg")) ∧
  (JewelleryImageManager.getImageSrc cfg a =
   JewelleryImageManager.getImageSrc cfg b → a = b).
Proof.
  intros Ha Hb. unfold JewelleryImageManager.getImageSrc.
  rewrite !decide_True by done. split_and!; [by eexists|done|].
  intros [= H]. unfold JewelleryImageManager.localPath in H.
  apply (inj (String.app (BASE_PATH cfg))) in H.
  apply (inj (String.app (IMAGE_PREFIX cfg))) in H.
  apply append_inj_l in H. by apply (inj pretty).
Qed.

Lemma getImageSrc_local_inj_witness :
  3 ≤ TOTAL_IMAGES JEWELLERY_CONFIG ∧ -4 ≤ TOTAL_IMAGES JEWELLERY_CONFIG ∧
  JewelleryImageManager.getImageSrc JEWELLERY_CONFIG 3 =
    Some "images/jewel-3.jpg" ∧
  JewelleryImageManager.getImageSrc JEWELLERY_CONFIG (-4) =
    Some "images/jewel--4.jpg" ∧
  JewelleryImageManager.getImageSrc JEWELLERY_CONFIG 3 ≠
  JewelleryImageManager.getImageSrc JEWELLERY_CONFIG (-4).
Proof.
  assert (3 ≤ TOTAL_IMAGES JEWELLERY_CONFIG) as H3 by (cbn; lia).
  assert (-4 ≤ TOTAL_IMAGES JEWELLERY_CONFIG) as H4 by (cbn; lia).
  assert (Z.abs 3 ≤ 2 ^ 53) as B3 by (vm_compute; discriminate).
  assert (Z.abs (-4) ≤ 2 ^ 53) as B4 by (vm_compute; discriminate).
  split_and!; [exact H3|exact H4| | |].
  - exact (proj1 (proj2 (getImageSrc_local_inj JEWELLERY_CONFIG 3 (-4) H3 H4))
             B3).
  - exact (proj1 (proj2 (getImageSrc_local_inj JEWELLERY_CONFIG (-4) 3 H4 H3))
             B4).
  - intros H.
    pose proof (proj2 (proj2
      (getImageSrc_local_inj JEWELLERY_CONFIG 3 (-4) H3 H4)) H).
    lia.
Defined.

(** The fallback choice goes round the list: the first [length] identifiers
    take the entries in order, and adding a multiple of the length to an
    identifier does not change its entry, as long as the sum stays within
    [2 ^ 53], where the subtraction in the index is exact. *)
Theorem getFallbackImage_cycle (cfg : Config) (id : Z) (k : nat) :
  1 ≤ id →
  id + Z.of_nat k * Z.of_nat (length (FALLBACK_IMAGES cfg)) ≤ 2 ^ 53 →
  JewelleryImageManager.getFallbackImage cfg
    (id + Z.of_nat k * Z.of_nat (length (FALLBACK_IMAGES cfg))) =
  JewelleryImageManager.getFallbackImage cfg id ∧
  (id ≤ Z.of_nat (length (FALLBACK_IMAGES cfg)) →
   JewelleryImageManager.getFallbackImage cfg id =
   FALLBACK_IMAGES cfg !! Z.to_nat (id - 1) ∧
   is_Some (JewelleryImageManager.getFallbackImage cfg id)).
Proof.
  intros Hid. set (len := Z.of_nat (length (FALLBACK_IMAGES cfg))).
  intros Hsafe.
  assert (0 ≤ Z.of_nat k * len) as Hk by (subst len; nia).
  assert (id ≤ 2 ^ 53) as Hsafe' by lia.
  split.
  - rewrite !getFallbackImage_mod by lia. fold len.
    destruct (decide (len = 0)) as [->|Hlen].
    + by rewrite Z.mul_0_r, Z.add_0_r.
    + replace (id + Z.of_nat k * len - 1) with (id - 1 + Z.of_nat k * len) by lia.
      by rewrite Z.mod_add.
  - intros Hle. rewrite getFallbackImage_mod by done. fold len.
    rewrite Z.mod_small by lia. split; [done|].
    apply lookup_lt_is_Some. lia.
Qed.

Lemma getFallbackImage_cycle_witness :
  1 ≤ 2 ∧
  2 + Z.of_nat 3 * Z.of_nat (length (FALLBACK_IMAGES JEWELLERY_CONFIG)) ≤ 2 ^ 53 ∧
  JewelleryImageManager.getFallbackImage JEWELLERY_CONFIG 17 =
  JewelleryImageManager.getFallbackImage JEWELLERY_CONFIG 2 ∧
  JewelleryImageManager.getFallbackImage JEWELLERY_CONFIG 2 =
  FALLBACK_IMAGES JEWELLERY_CONFIG !! 1%nat.
Proof.
  assert (1 ≤ 2) as H by lia.
  assert (2 + Z.of_nat 3 * Z.of_nat (length (FALLBACK_IMAGES JEWELLERY_CONFIG))
          ≤ 2 ^ 53) as Hs by (vm_compute; discriminate).
  pose proof (getFallbackImage_cycle JEWELLERY_CONFIG 2 3 H Hs) as [Hcyc Hfirst].
  split_and!; [exact H|exact Hs|exact Hcyc|].
  exact (proj1 (Hfirst ltac:(cbn; lia))).
Defined.

(** An identifier that is not positive, and above [- 2 ^ 53] so that
    [id - 1] is exact, has a fallback only when [id - 1] is a multiple of the
    list length, and then it is the first entry; otherwise the index is
    negative and the lookup gives [undefined]. *)
Theorem getFallbackImage_nonpositive (cfg : Config) (id : Z) :
  id ≤ 0 → - 2 ^ 53 < id →
  let len := Z.of_nat (length (FALLBACK_IMAGES cfg)) in
  (Z.rem (id - 1) len ≠ 0 ∨ len = 0 →
   JewelleryImageManager.getFallbackImage cfg id = None) ∧
  (Z.rem (id - 1) len = 0 → len ≠ 0 →
   JewelleryImageManager.getFallbackImage cfg id = FALLBACK_IMAGES cfg !! 0%nat).
Proof.
  intros Hid Hsafe len.
  unfold JewelleryImageManager.getFallbackImage,
    JewelleryImageManager.fallbackIndex, JS.rem, JS.sub. fold len.
  rewrite roundDouble_safe by lia.
  split.
  - intros [Hrem|Hlen].
    + destruct (decide (len = 0)); [done|]. cbn.
      rewrite decide_False; [done|].
      pose proof (Z.rem_nonpos (id - 1) len ltac:(lia) ltac:(lia)). lia.
    + by rewrite decide_True.
  - intros Hrem Hlen. rewrite decide_False by done. cbn.
    rewrite Hrem. by rewrite decide_True.
Qed.

Lemma getFallbackImage_nonpositive_witness :
  (-2) ≤ 0 ∧ (-4) ≤ 0 ∧ - 2 ^ 53 < -2 ∧ - 2 ^ 53 < -4 ∧
  JewelleryImageManager.getFallbackImage JEWELLERY_CONFIG (-2) = None ∧
  JewelleryImageManager.getFallbackImage JEWELLERY_CONFIG (-4) =
  FALLBACK_IMAGES JEWELLERY_CONFIG !! 0%nat.
Proof.
  assert (- 2 ^ 53 < -2) as B2 by (vm_compute; reflexivity).
  assert (- 2 ^ 53 < -4) as B4 by (vm_compute; reflexivity).
  split_and!; [lia|lia|exact B2|exact B4| |].
  - apply (proj1 (getFallbackImage_nonpositive JEWELLERY_CONFIG (-2)
                    ltac:(lia) B2)).
    left. vm_compute. discriminate.
  - apply (proj2 (getFallbackImage_nonpositive JEWELLERY_CONFIG (-4)
                    ltac:(lia) B4));
      vm_compute; [reflexivity|discriminate].
Defined.



(** * Further properties of the encoded messages and the buy handler *)

(** Whatever the item's name, the text [getWhatsAppMessage] returns can go
    into a query string as it is: it has no space, line break, ampersand,
    hash, question mark, equals sign, plus or slash in it, and nothing but
    unreserved marks and percent signs. *)
Theorem getWhatsAppMessage_url_safe (this : JewelleryItem.t) :
  Forall (λ c, JS.unreserved c = true ∨ c = "%"%char)
         (list_ascii_of_string (JewelleryItem.getWhatsAppMessage this)) ∧
  ∀ c, c ∈ [" "; "010"; "013"; "&"; "#"; "?"; "="; "+"; "/"; "034"; "<"; ">"]%char →
       c ∉ list_ascii_of_string (JewelleryItem.getWhatsAppMessage this).
Proof.
  assert (Forall (λ c, JS.unreserved c = true ∨ c = "%"%char)
            (list_ascii_of_string (JewelleryItem.getWhatsAppMessage this))) as H
    by apply encodeURIComponent_chars.
  split; [done|]. intros c Hc Hin.
  rewrite Forall_forall in H. specialize (H c Hin).
  repeat (apply elem_of_cons in Hc as [->|Hc];
          [by destruct H as [H|H]; vm_compute in H|]).
  by apply elem_of_nil in Hc.
Qed.

Lemma handleWhatsAppClick_run (button : gmap string string) (s : State)
    (modal : gset string) (item : string) (image : ModalImage) (link : string) :
  buyNowModal s = Some modal → modalItem s = Some item →
  modalImage s = Some image → modalWhatsappLink s = Some link →
  let itemId := JS.toString (JS.ofOption (button !! "itemId")) in
  let displayName :=
    JS.or_else (button !! "itemName") ("Jewellery Item " +:+ itemId) in
  JewelleryGridManager.handleWhatsAppClick button s =
  (Normal tt,
   set_dialog (classList_remove "hidden" modal) displayName
     {| modal_src := JS.toString (JS.ofOption (button !! "imageSrc"));
        modal_alt := displayName |}
     ("https://wa.me/917436053004?text=" +:+
      JS.encodeURIComponent
        (JewelleryGridManager.whatsAppText displayName
           (JewelleryGridManager.netlifyImageUrl itemId) itemId))
     "hidden" s).
Proof.
  intros Hmodal Hitem Himage Hlink.
  unfold JewelleryGridManager.handleWhatsAppClick, modify.
  by rewrite Hmodal, Hitem, Himage, Hlink.
Qed.

Lemma or_else_nonempty (a : option string) (b : string) :
  b ≠ "" → JS.or_else a b ≠ "".
Proof.
  intros Hb. unfold JS.or_else. destruct a as [n|]; [|done].
  by destruct (decide (n = "")).
Qed.

Lemma whatsAppText_includes (displayName url itemId : string) :
  JS.includes (JewelleryGridManager.whatsAppText displayName url itemId)
              displayName = true ∧
  JS.includes (JewelleryGridManager.whatsAppText displayName url itemId)
              url = true ∧
  JS.includes (JewelleryGridManager.whatsAppText displayName url itemId)
              ("Item #" +:+ itemId) = true.
Proof.
  set (LF := JewelleryGridManager.LF).
  set (head := "Hi Sisters Sparkles! " +:+ LF +:+ LF +:+
               "I'm interested in buying this jewellery from your exhibition:"
               +:+ LF +:+ LF +:+ " *").
  set (tail := "*" +:+ LF +:+ LF +:+
               "Please share price and availability. Thank you!").
  assert (JewelleryGridManager.whatsAppText displayName url itemId =
          head +:+ displayName +:+ ("*" +:+ LF +:+ " *Image:* ") +:+ url +:+
          (LF +:+ " *") +:+ ("Item #" +:+ itemId) +:+ tail) as ->.
  { unfold JewelleryGridManager.whatsAppText, head, tail.
    rewrite !append_assoc. reflexivity. }
  split_and!; apply includes_occurs.
  - by exists head, (("*" +:+ LF +:+ " *Image:* ") +:+ url +:+
                     (LF +:+ " *") +:+ ("Item #" +:+ itemId) +:+ tail).
  - exists (head +:+ displayName +:+ ("*" +:+ LF +:+ " *Image:* ")),
           ((LF +:+ " *") +:+ ("Item #" +:+ itemId) +:+ tail).
    by rewrite !append_assoc.
  - exists (head +:+ displayName +:+ ("*" +:+ LF +:+ " *Image:* ") +:+ url +:+
            (LF +:+ " *")), tail.
    by rewrite !append_assoc.
Qed.
(** Whatever the button carries, on a page with the four dialog elements the
    link the click sets is the fixed address followed by a text that is safe
    in a query string and decodes to a message naming the item as the dialog
    shows it, the image URL on the remote host for the button's identifier,
    and ["Item #"] with that identifier. *)
Theorem buy_click_link (button : gmap string string) (s : State)
    (modal : gset string) (item : string) (image : ModalImage) (link : string) :
  buyNowModal s = Some modal → modalItem s = Some item →
  modalImage s = Some image → modalWhatsappLink s = Some link →
  let s' := exec (JewelleryGridManager.handleWhatsAppClick button) s in
  let itemId := JS.toString (JS.ofOption (button !! "itemId")) in
  ∃ text message displayName : string,
    modalWhatsappLink s' = Some ("https://wa.me/917436053004?text=" +:+ text) ∧
    modalItem s' = Some displayName ∧
    Forall (λ c, JS.unreserved c = true ∨ c = "%"%char)
           (list_ascii_of_string text) ∧
    JS.percentDecode text = Some message ∧
    JS.includes message displayName = true ∧
    JS.includes message
      ("https://sister-sparkles.netlify.app/images/jewel-" +:+ itemId +:+ ".jpg")
      = true ∧
    JS.includes message ("Item #" +:+ itemId) = true.
Proof.
  intros Hmodal Hitem Himage Hlink s' itemId. subst s'. unfold exec.
  rewrite (handleWhatsAppClick_run button s modal item image link) by done.
  fold itemId. cbn [snd modalWhatsappLink modalItem set_dialog].
  set (displayName := JS.or_else _ _).
  eexists _, _, displayName. split_and!.
  - reflexivity.
  - reflexivity.
  - apply encodeURIComponent_chars.
  - apply percentDecode_encodeURIComponent.
  - exact (proj1 (whatsAppText_includes displayName
                    (JewelleryGridManager.netlifyImageUrl itemId) itemId)).
  - exact (proj1 (proj2 (whatsAppText_includes displayName
                           (JewelleryGridManager.netlifyImageUrl itemId) itemId))).
  - exact (proj2 (proj2 (whatsAppText_includes displayName
                           (JewelleryGridManager.netlifyImageUrl itemId) itemId))).
Qed.

Lemma buy_click_link_witness :
  let button : gmap string string := {[ "itemId" := "9" ]} in
  let s' := exec (JewelleryGridManager.handleWhatsAppClick button)
                 JewelleryGridManager.page in
  ∃ text message : string,
    modalWhatsappLink s' = Some ("https://wa.me/917436053004?text=" +:+ text) ∧
    modalItem s' = Some "Jewellery Item 9" ∧
    JS.percentDecode text = Some message ∧
    JS.includes message "Item #9" = true.
Proof.
  intros button s'.
  destruct (buy_click_link button JewelleryGridManager.page
              {["hidden"]} "" {| modal_src := ""; modal_alt := "" |} "#"
              eq_refl eq_refl eq_refl eq_refl)
    as (text & message & displayName & Hlink & Hitem & _ & Hdec & _ & _ & Hid).
  exists text, message. split_and!; [exact Hlink| |exact Hdec|exact Hid].
  vm_compute. reflexivity.
Defined.

(** A click on a page that lacks any one of the four dialog elements changes
    nothing at all, and raises no error. *)
Theorem buy_click_missing_element (button : gmap string string) (s : State) :
  buyNowModal s = None ∨ modalItem s = None ∨
  modalImage s = None ∨ modalWhatsappLink s = None →
  JewelleryGridManager.handleWhatsAppClick button s = (Normal tt, s).
Proof.
  unfold JewelleryGridManager.handleWhatsAppClick, modify.
  intros [H|[H|[H|H]]]; rewrite H; [done|..];
    repeat (match goal with |- context [match ?o with _ => _ end] =>
              destruct o end); done.
Qed.

Lemma buy_click_missing_element_witness :
  let s := set_dialog ∅ "" {| modal_src := ""; modal_alt := "" |} "#" ""
             JewelleryGridManager.page in
  let bare := {| grid := grid s; loadingIndicator := loadingIndicator s;
                 viewMoreContainer := viewMoreContainer s;
                 viewMoreBtn := viewMoreBtn s; loadedItems := loadedItems s;
                 isInitializing := false; buyNowModal := buyNowModal s;
                 modalItem := modalItem s; modalImage := None;
                 modalWhatsappLink := modalWhatsappLink s;
                 bodyOverflow := "" |} in
  exec (JewelleryGridManager.handleWhatsAppClick {[ "itemId" := "5" ]}) bare = bare.
Proof.
  intros s bare. unfold exec.
  rewrite (buy_click_missing_element {[ "itemId" := "5" ]} bare); [reflexivity|].
  right. right. left. reflexivity.
Defined.

(** With the four elements there, the click shows the dialog: the class
    [hidden] goes and the other classes stay, the page stops scrolling, the
    title and the image's [alt] are the display name, which is never empty,
    and the image is the button's local one.  The grid, the loaded
    identifiers, the "load more" button and container and the loading
    indicator are left as they were. *)
Theorem buy_click_dialog (button : gmap string string) (s : State)
    (modal : gset string) (item : string) (image : ModalImage) (link : string) :
  buyNowModal s = Some modal → modalItem s = Some item →
  modalImage s = Some image → modalWhatsappLink s = Some link →
  let s' := exec (JewelleryGridManager.handleWhatsAppClick button) s in
  (∃ modal', buyNowModal s' = Some modal' ∧
     ∀ cls, cls ∈ modal' ↔ cls ∈ modal ∧ cls ≠ "hidden") ∧
  bodyOverflow s' = "hidden" ∧
  (∃ displayName,
     displayName ≠ "" ∧
     modalItem s' = Some displayName ∧
     modalImage s' =
       Some {| modal_src := JS.toString (JS.ofOption (button !! "imageSrc"));
               modal_alt := displayName |} ∧
     (∀ n, button !! "itemName" = Some n → n ≠ "" → displayName = n)) ∧
  grid s' = grid s ∧ loadedItems s' = loadedItems s ∧
  viewMoreBtn s' = viewMoreBtn s ∧ viewMoreContainer s' = viewMoreContainer s ∧
  loadingIndicator s' = loadingIndicator s.
Proof.
  intros Hmodal Hitem Himage Hlink s'. subst s'. unfold exec.
  rewrite (handleWhatsAppClick_run button s modal item image link) by done.
  cbn [snd]. split_and!; try reflexivity.
  - eexists. split; [reflexivity|]. intros cls.
    unfold classList_remove. set_solver.
  - eexists. split_and!; [|reflexivity|reflexivity|].
    + by apply or_else_nonempty.
    + intros n -> Hn. unfold JS.or_else. by rewrite decide_False.
Qed.

Lemma buy_click_dialog_witness :
  let s' := exec (JewelleryGridManager.handleWhatsAppClick
                    {[ "itemId" := "5"; "itemName" := "Ring" ]})
                 JewelleryGridManager.page in
  buyNowModal s' = Some ∅ ∧ bodyOverflow s' = "hidden" ∧
  modalItem s' = Some "Ring" ∧ grid s' = Some [].
Proof.
  intros s'.
  destruct (buy_click_dialog {[ "itemId" := "5"; "itemName" := "Ring" ]}
              JewelleryGridManager.page
              {["hidden"]} "" {| modal_src := ""; modal_alt := "" |} "#"
              eq_refl eq_refl eq_refl eq_refl)
    as (_ & Hflow & _ & Hgrid & _).
  split_and!; [vm_compute; reflexivity|exact Hflow|vm_compute; reflexivity|
               exact Hgrid].
Defined.

(** Clicks do not pile up: after two clicks the page is as after the second
    one alone, so a repeated click changes nothing more. *)
Theorem buy_click_last_wins (b1 b2 : gmap string string) (s : State) :
  exec (JewelleryGridManager.handleWhatsAppClick b2)
       (exec (JewelleryGridManager.handleWhatsAppClick b1) s) =
  exec (JewelleryGridManager.handleWhatsAppClick b2) s.
Proof.
  unfold exec.
  destruct (buyNowModal s) as [modal|] eqn:Hmodal;
    [destruct (modalItem s) as [item|] eqn:Hitem;
      [destruct (modalImage s) as [image|] eqn:Himage;
        [destruct (modalWhatsappLink s) as [link|] eqn:Hlink|]|]|].
  - rewrite (handleWhatsAppClick_run b1 s modal item image link) by done.
    cbn [snd].
    erewrite (handleWhatsAppClick_run b2 (set_dialog _ _ _ _ _ s)) by reflexivity.
    rewrite (handleWhatsAppClick_run b2 s modal item image link) by done.
    cbn [snd]. unfold set_dialog; cbn. do 2 f_equal.
    unfold classList_remove. set_solver.
  - rewrite (buy_click_missing_element b1 s) by auto. done.
  - rewrite (buy_click_missing_element b1 s) by auto. done.
  - rewrite (buy_click_missing_element b1 s) by auto. done.
  - rewrite (buy_click_missing_element b1 s) by auto. done.
Qed.

(** * Further properties of the grid controller *)

Lemma fresh_all_new (itemIds : list Z) (loaded : gset Z) :
  NoDup itemIds → (∀ x, x ∈ itemIds → x ∉ loaded) →
  fresh itemIds loaded = itemIds.
Proof.
  intros Hnd. revert loaded.
  induction Hnd as [|y rest Hy Hnd IH]; intros loaded Hnew; [done|].
  cbn [fresh]. rewrite decide_False by (apply Hnew; by left).
  f_equal. apply IH. intros x Hx. specialize (Hnew x ltac:(by right)).
  set_solver.
Qed.

Lemma fresh_app_loaded (l1 l2 : list Z) (loaded : gset Z) :
  (∀ x, x ∈ l1 → x ∈ loaded) → fresh (l1 ++ l2) loaded = fresh l2 loaded.
Proof.
  induction l1 as [|y l1 IH]; intros Hin; [done|].
  cbn [app fresh]. rewrite decide_True by (apply Hin; by left).
  apply IH. intros x Hx. apply Hin. by right.
Qed.

(** What is fresh in a run of identifiers [a, a+1, ...] of length [k] when
    exactly [1 .. n] are loaded and the run starts at or below [n + 1]. *)
Lemma fresh_seqZ (a k n : Z) :
  1 ≤ a ≤ n + 1 → 0 ≤ n →
  fresh (seqZ a k) (list_to_set (seqZ 1 n)) =
  seqZ (n + 1) (a + k - (n + 1)).
Proof.
  intros Ha Hn. destruct (decide (a + k ≤ n + 1)) as [Hle|Hgt].
  - rewrite (seqZ_nil (n + 1)) by lia. apply fresh_loaded.
    intros x. rewrite elem_of_list_to_set, !elem_of_seqZ. lia.
  - replace k with ((n + 1 - a) + (a + k - (n + 1))) at 1 by lia.
    rewrite seqZ_app by lia. rewrite fresh_app_loaded.
    + replace (a + (n + 1 - a)) with (n + 1) by lia.
      apply fresh_all_new; [apply NoDup_seqZ|].
      intros x. rewrite elem_of_list_to_set, !elem_of_seqZ. lia.
    + intros x. rewrite elem_of_list_to_set, !elem_of_seqZ. lia.
Qed.

Lemma list_to_set_seqZ_union (a k n : Z) :
  1 ≤ a ≤ n + 1 → 0 ≤ n →
  (list_to_set (seqZ 1 n) ∪ list_to_set (seqZ a k) : gset Z) =
  list_to_set (seqZ 1 (Z.max n (a + k - 1))).
Proof.
  intros Ha Hn. apply set_eq. intros x.
  rewrite elem_of_union, !elem_of_list_to_set, !elem_of_seqZ. lia.
Qed.

(** A batch that is a run of identifiers starting at or below [n + 1] takes a
    grid showing the cards of [1 .. n] to one showing the cards of
    [1 .. n'], in order. *)
Lemma loads_seqZ (cfg : Config) (names : list string) (a k n : Z) (s s' : State) :
  1 ≤ a ≤ n + 1 → 0 ≤ n →
  loads cfg names (seqZ a k) s s' →
  loadedItems s = list_to_set (seqZ 1 n) →
  (∀ g, grid s = Some g →
     g = (λ x, JewelleryGridManager.observe (newCard cfg names x)) <$> seqZ 1 n) →
  let n' := Z.max n (a + k - 1) in
  loadedItems s' = list_to_set (seqZ 1 n') ∧
  (∀ g, grid s' = Some g →
     g = (λ x, JewelleryGridManager.observe (newCard cfg names x)) <$> seqZ 1 n').
Proof.
  intros Ha Hn [HL Hg] HLs Hgs n'. split.
  - rewrite HL, HLs. by apply list_to_set_seqZ_union.
  - intros g' Hg'. rewrite Hg in Hg'.
    destruct (grid s) as [g|]; [|done]. injection Hg' as <-.
    rewrite (Hgs g eq_refl), HLs, fresh_seqZ by done.
    rewrite fmap_app, <- !list_fmap_compose.
    replace n' with (n + (a + k - (n + 1)) `max` 0) by lia.
    destruct (decide (0 ≤ a + k - (n + 1))).
    + rewrite Z.max_l by lia. rewrite seqZ_app by lia.
      rewrite fmap_app. replace (1 + n) with (n + 1) by lia.
      f_equal; by apply list_fmap_ext.
    + rewrite Z.max_r by lia. rewrite (seqZ_nil (n + 1)) by lia.
      rewrite Z.add_0_r, fmap_nil, app_nil_r. by apply list_fmap_ext.
Qed.

(** The grid of a reachable state shows the cards of the identifiers
    [1 .. n] in ascending order, without gap or repeat, each with its image
    source assigned, where [n] is the number of loaded identifiers; those are
    exactly the loaded ones, and [n] is at most the total. *)
Theorem reachable_grid_contents (cfg : Config) (names : list string) (s : State) :
  reachable cfg names s →
  let n := Z.of_nat (size (loadedItems s)) in
  loadedItems s = list_to_set (seqZ 1 n) ∧
  n ≤ Z.max 0 (TOTAL_IMAGES cfg) ∧
  (∀ g, grid s = Some g →
     g = (λ x, JewelleryGridManager.observe (newCard cfg names x)) <$> seqZ 1 n).
Proof.
  intros Hs.
  assert (∃ n, 0 ≤ n ≤ Z.max 0 (TOTAL_IMAGES cfg) ∧
            loadedItems s = list_to_set (seqZ 1 n) ∧
            (∀ g, grid s = Some g →
               g = (λ x, JewelleryGridManager.observe (newCard cfg names x))
                     <$> seqZ 1 n)) as (n & Hn & HL & Hg).
  { induction Hs as [page Hpage|s _ IH|s _ IH].
    - exists 0. split_and!; [lia|lia|done|].
      intros g Hg. unfold cards in Hpage.
      change (grid (JewelleryGridManager.new page)) with (grid page) in Hg.
      rewrite Hg in Hpage. cbn in Hpage. by rewrite Hpage.
    - destruct IH as (n & Hn & HL & Hg).
      pose proof (loadInitialItems_loads cfg names s) as Hl.
      unfold initialBatch in Hl.
      destruct (loads_seqZ cfg names 1 _ n _ _ ltac:(lia) ltac:(lia) Hl HL Hg)
        as [HL' Hg'].
      eexists. split_and!; [| |exact HL'|exact Hg']; lia.
    - destruct IH as (n & Hn & HL & Hg).
      destruct (loadMoreItems_cases cfg names s) as [->|Hl]; [by exists n|].
      unfold nextBatch in Hl.
      assert (Z.of_nat (size (loadedItems s)) = n) as Hsize.
      { rewrite HL, size_list_to_set by apply NoDup_seqZ.
        rewrite length_seqZ. lia. }
      rewrite Hsize in Hl.
      destruct (loads_seqZ cfg names (n + 1) _ n _ _ ltac:(lia) ltac:(lia) Hl HL Hg)
        as [HL' Hg'].
      eexists. split_and!; [| |exact HL'|exact Hg']; lia. }
  intros m.
  assert (m = n) as ->.
  { subst m. rewrite HL, size_list_to_set by apply NoDup_seqZ.
    rewrite length_seqZ. lia. }
  split_and!; [done|lia|done].
Qed.

Lemma reachable_grid_contents_witness :
  let s := exec (JewelleryGridManager.loadMoreItems JEWELLERY_CONFIG JEWELLERY_NAMES)
             (exec (JewelleryGridManager.loadInitialItems JEWELLERY_CONFIG JEWELLERY_NAMES)
                (JewelleryGridManager.new JewelleryGridManager.page)) in
  reachable JEWELLERY_CONFIG JEWELLERY_NAMES s ∧
  loadedItems s = list_to_set (seqZ 1 (Z.of_nat (size (loadedItems s)))) ∧
  Z.of_nat (size (loadedItems s)) ≤ 36.
Proof.
  intros s.
  assert (reachable JEWELLERY_CONFIG JEWELLERY_NAMES s) as Hs.
  { apply reach_more, reach_initial, reach_new. reflexivity. }
  destruct (reachable_grid_contents JEWELLERY_CONFIG JEWELLERY_NAMES s Hs)
    as (HL & Hn & _).
  split_and!; [exact Hs|exact HL|exact Hn].
Defined.

(** A load-more call that finds the grid and an enabled button completes
    normally and hands the button back enabled, with its label restored; the
    loading indicator is not touched. *)
Lemma loadMoreItems_button (cfg : Config) (names : list string)
    (s : State) (b : Button) (g : list Card) :
  viewMoreBtn s = Some b → disabled b = false → grid s = Some g →
  completion (JewelleryGridManager.loadMoreItems cfg names) s = Normal tt ∧
  viewMoreBtn (exec (JewelleryGridManager.loadMoreItems cfg names) s) =
    Some {| disabled := false; textContent := "View More Jewellery" |} ∧
  loadingIndicator (exec (JewelleryGridManager.loadMoreItems cfg names) s) =
    loadingIndicator s.
Proof.
  intros Hb Hd Hg.
  unfold completion, exec, JewelleryGridManager.loadMoreItems,
    JewelleryGridManager.updateViewMoreButton.
  unfold mbind, M_bind, bind, deref, ret, throw, modify, get. rewrite Hb, Hd.
  rewrite loadItemsBatch_run. clear Hb.
  destruct s as [[g'|] ? [vc|] ? ? ? ? ? ? ? ?]; try discriminate;
    split_and!; reflexivity.
Qed.

(** Progress of "load more": from a reachable state with the grid and an
    enabled button, and a batch size that is not negative, [k] calls leave
    [min (n + k * BATCH_SIZE) TOTAL_IMAGES] identifiers loaded ([n] before,
    and none if the total is negative), the button enabled again, and the
    container hidden exactly when [n + k * BATCH_SIZE] has reached the
    total. *)
Theorem loadMoreItems_progress (cfg : Config) (names : list string)
    (s : State) (b : Button) (g : list Card) (k : nat) :
  reachable cfg names s →
  viewMoreBtn s = Some b → disabled b = false → grid s = Some g →
  0 ≤ BATCH_SIZE cfg →
  let n := Z.of_nat (size (loadedItems s)) in
  let sk := Nat.iter k (exec (JewelleryGridManager.loadMoreItems cfg names)) s in
  Z.of_nat (size (loadedItems sk)) =
    Z.min (n + Z.of_nat k * BATCH_SIZE cfg) (Z.max 0 (TOTAL_IMAGES cfg)) ∧
  (∃ bk, viewMoreBtn sk = Some bk ∧ disabled bk = false) ∧
  ((0 < k)%nat → is_Some (viewMoreContainer s) →
   (viewMoreHidden sk ↔ TOTAL_IMAGES cfg ≤ n + Z.of_nat k * BATCH_SIZE cfg)).
Proof.
  intros Hs Hb Hd Hg HB n sk.
  assert (reachable cfg names sk ∧ is_Some (grid sk) ∧
          (∃ bk, viewMoreBtn sk = Some bk ∧ disabled bk = false) ∧
          (is_Some (viewMoreContainer s) → is_Some (viewMoreContainer sk)) ∧
          Z.of_nat (size (loadedItems sk)) =
            Z.min (n + Z.of_nat k * BATCH_SIZE cfg) (Z.max 0 (TOTAL_IMAGES cfg)) ∧
          ((0 < k)%nat → is_Some (viewMoreContainer s) →
           (viewMoreHidden sk ↔
            TOTAL_IMAGES cfg ≤ Z.of_nat (size (loadedItems sk)))))
    as (_ & _ & Hbk & _ & Hsize & Hhid).
  { subst sk. induction k as [|k IH].
    - cbn [Nat.iter nat_rect].
      destruct (reachable_grid_contents cfg names s Hs) as (_ & Hn & _).
      fold n in Hn. split_and!; [done|by eexists|by eexists|done|lia|lia].
    - rewrite Nat.iter_succ.
      set (sk := Nat.iter k _ s) in *.
      destruct IH as (Hsk & [gk Hgk] & (bk & Hbk & Hdk) & Hck & Hsize & _).
      destruct (reachable_grid_contents cfg names sk Hsk) as (HL & Hn & Hgc).
      pose proof (loadMoreItems_loads cfg names sk bk Hbk Hdk) as Hl.
      unfold nextBatch in Hl.
      set (m := Z.of_nat (size (loadedItems sk))) in *.
      destruct (loads_seqZ cfg names (m + 1) _ m _ _ ltac:(lia) ltac:(lia) Hl HL Hgc)
        as [HL' _].
      destruct (loadMoreItems_button cfg names sk bk gk Hbk Hdk Hgk)
        as (_ & Hb' & _).
      assert (Z.of_nat (size (loadedItems
                (exec (JewelleryGridManager.loadMoreItems cfg names) sk))) =
              Z.max m (Z.min (m + BATCH_SIZE cfg) (TOTAL_IMAGES cfg))) as Hsize'.
      { rewrite HL', size_list_to_set by apply NoDup_seqZ.
        rewrite length_seqZ. lia. }
      pose proof (loadMoreItems_container cfg names sk bk gk Hbk Hdk Hgk) as Hc'.
      cbv zeta in Hc'.
      split_and!.
      + by apply reach_more.
      + destruct Hl as [_ ->]. rewrite Hgk. by eexists.
      + by eexists.
      + intros Hc. rewrite Hc'. destruct (Hck Hc) as [cl ->]. by eexists.
      + rewrite Hsize'. lia.
      + intros _ Hc. by apply (viewMoreHidden_toggled cfg sk); [apply Hck|]. }
  split_and!; [done|done|].
  intros Hk Hc. rewrite (Hhid Hk Hc), Hsize. lia.
Qed.

Lemma loadMoreItems_progress_witness :
  let s := exec (JewelleryGridManager.loadInitialItems JEWELLERY_CONFIG JEWELLERY_NAMES)
             (JewelleryGridManager.new JewelleryGridManager.page) in
  let s4 := Nat.iter 4
              (exec (JewelleryGridManager.loadMoreItems JEWELLERY_CONFIG JEWELLERY_NAMES))
              s in
  reachable JEWELLERY_CONFIG JEWELLERY_NAMES s ∧
  Z.of_nat (size (loadedItems s4)) = 36 ∧
  viewMoreHidden s4.
Proof.
  intros s s4.
  assert (reachable JEWELLERY_CONFIG JEWELLERY_NAMES s) as Hs.
  { apply reach_initial, reach_new. reflexivity. }
  assert (viewMoreBtn s =
          Some {| disabled := false; textContent := "View More Jewellery" |})
    as Hb by (vm_compute; reflexivity).
  assert (grid s = Some (cards s)) as Hg by (vm_compute; reflexivity).
  assert (viewMoreContainer s = Some ∅) as Hc by (vm_compute; reflexivity).
  assert (Z.of_nat (size (loadedItems s)) = 8) as Hn by (vm_compute; reflexivity).
  assert (0 ≤ BATCH_SIZE JEWELLERY_CONFIG) as HB by (cbn; lia).
  destruct (loadMoreItems_progress JEWELLERY_CONFIG JEWELLERY_NAMES s
              {| disabled := false; textContent := "View More Jewellery" |}
              (cards s) 4 Hs Hb eq_refl Hg HB)
    as (Hsize & _ & Hhid).
  fold s4 in Hsize, Hhid. rewrite Hn in Hsize, Hhid.
  split_and!; [exact Hs|exact Hsize|].
  apply Hhid; [lia|by rewrite Hc|]. cbn. lia.
Defined.

(** A batch load of any list of identifiers, repeated or already loaded ones
    included: afterwards every requested identifier is loaded, the cards that
    were there are still there in the same order, and the cards added after
    them are one per identifier that was not loaded, without repeats, in the
    order of the request. *)
Theorem loadItemsBatch_any_batch (cfg : Config) (names : list string)
    (itemIds : list Z) (s : State) (g : list Card) :
  grid s = Some g →
  let s' := exec (JewelleryGridManager.loadItemsBatch cfg names itemIds) s in
  completion (JewelleryGridManager.loadItemsBatch cfg names itemIds) s = Normal tt ∧
  (∀ x, x ∈ loadedItems s' ↔ x ∈ loadedItems s ∨ x ∈ itemIds) ∧
  ∃ added : list Z,
    card_itemId <$> cards s' = (card_itemId <$> g) ++ (pretty <$> added) ∧
    NoDup added ∧
    (∀ x, x ∈ added ↔ x ∈ itemIds ∧ x ∉ loadedItems s) ∧
    added `sublist_of` itemIds.
Proof.
  intros Hg s'. subst s'. unfold completion, exec, cards.
  rewrite loadItemsBatch_run, Hg. cbn [fst snd grid set_grid default].
  split_and!; [done|..].
  - intros x. cbn. rewrite elem_of_union, elem_of_list_to_set. done.
  - exists (fresh itemIds (loadedItems s)). split_and!.
    + unfold id. rewrite card_itemId_observe, fmap_app. f_equal.
      rewrite <- list_fmap_compose. apply list_fmap_ext. intros _ x _.
      apply card_itemId_create.
    + apply fresh_NoDup.
    + intros x. split; [intros [??]%fresh_elem_of; done|].
      intros [Hin Hnew].
      pose proof (fresh_union itemIds (loadedItems s)) as Hu.
      assert (x ∈ loadedItems s ∪ list_to_set (fresh itemIds (loadedItems s)))
        as Hx by (rewrite Hu; set_solver).
      set_solver.
    + clear. generalize (loadedItems s). induction itemIds as [|y l IH];
        intros L; cbn [fresh]; [done|].
      destruct (decide (y ∈ L)).
      * apply sublist_cons, IH.
      * apply sublist_skip, IH.
Qed.

Lemma loadItemsBatch_any_batch_witness :
  let s' := exec (JewelleryGridManager.loadItemsBatch JEWELLERY_CONFIG JEWELLERY_NAMES
                    [3; 9; 3; 40; 9])
                 JewelleryGridManager.page in
  grid JewelleryGridManager.page = Some [] ∧
  card_itemId <$> cards s' = ["3"; "9"; "40"] ∧
  (9 ∈ loadedItems s').
Proof.
  intros s'.
  destruct (loadItemsBatch_any_batch JEWELLERY_CONFIG JEWELLERY_NAMES
              [3; 9; 3; 40; 9] JewelleryGridManager.page [] eq_refl)
    as (_ & Hmem & _).
  split_and!; [reflexivity|vm_compute; reflexivity|].
  apply Hmem. right. repeat constructor.
Defined.

(** On a page without the grid a batch load fails with a [TypeError] when it
    comes to append the cards, after it has recorded the identifiers as
    loaded: they count as loaded though no card was rendered, and nothing
    else on the page has changed. *)
Theorem loadItemsBatch_without_grid (cfg : Config) (names : list string)
    (itemIds : list Z) (s : State) :
  grid s = None →
  JewelleryGridManager.loadItemsBatch cfg names itemIds s =
  (TypeError, set_loadedItems (loadedItems s ∪ list_to_set itemIds) s).
Proof.
  intros Hg. by rewrite loadItemsBatch_run, Hg.
Qed.

Lemma loadItemsBatch_without_grid_witness :
  let s := set_grid None JewelleryGridManager.page in
  let s' := exec (JewelleryGridManager.loadItemsBatch JEWELLERY_CONFIG JEWELLERY_NAMES [1; 2]) s in
  completion (JewelleryGridManager.loadItemsBatch JEWELLERY_CONFIG JEWELLERY_NAMES [1; 2]) s
    = TypeError ∧
  loadedItems s' = {[1; 2]} ∧ cards s' = [].
Proof.
  intros s s'. subst s'. unfold completion, exec.
  rewrite (loadItemsBatch_without_grid JEWELLERY_CONFIG JEWELLERY_NAMES [1; 2] s eq_refl).
  split_and!; [reflexivity|vm_compute; reflexivity|reflexivity].
Defined.

(** A load-more call does nothing on a page that has no button, where it
    fails with a [TypeError] before any change, and nothing on a page whose
    button is disabled, where it returns at once. *)
Theorem loadMoreItems_guard (cfg : Config) (names : list string) (s : State) :
  (viewMoreBtn s = None →
   JewelleryGridManager.loadMoreItems cfg names s = (TypeError, s)) ∧
  (∀ b, viewMoreBtn s = Some b → disabled b = true →
   JewelleryGridManager.loadMoreItems cfg names s = (Normal tt, s)).
Proof.
  unfold JewelleryGridManager.loadMoreItems.
  unfold mbind, M_bind, bind, deref, ret, throw. split.
  - by intros ->.
  - intros b -> Hd. by rewrite Hd.
Qed.

Lemma loadMoreItems_guard_witness :
  let s := set_viewMoreBtn
             (Some {| disabled := true; textContent := "Loading..." |})
             JewelleryGridManager.page in
  JewelleryGridManager.loadMoreItems JEWELLERY_CONFIG JEWELLERY_NAMES s =
    (Normal tt, s) ∧
  JewelleryGridManager.loadMoreItems JEWELLERY_CONFIG JEWELLERY_NAMES
    (set_viewMoreBtn None JewelleryGridManager.page) =
    (TypeError, set_viewMoreBtn None JewelleryGridManager.page).
Proof.
  intros s. split.
  - exact (proj2 (loadMoreItems_guard JEWELLERY_CONFIG JEWELLERY_NAMES s)
             _ eq_refl eq_refl).
  - exact (proj1 (loadMoreItems_guard JEWELLERY_CONFIG JEWELLERY_NAMES
                    (set_viewMoreBtn None JewelleryGridManager.page)) eq_refl).
Defined.

(** A load-more call on a page that has the button but not the grid fails
    half-way: the next identifiers are recorded as loaded, the button is left
    disabled with the label ["Loading..."], the container is not updated, and
    every later call returns at once without doing anything. *)
Theorem loadMoreItems_without_grid (cfg : Config) (names : list string)
    (s : State) (b : Button) :
  viewMoreBtn s = Some b → disabled b = false → grid s = None →
  let s' := exec (JewelleryGridManager.loadMoreItems cfg names) s in
  completion (JewelleryGridManager.loadMoreItems cfg names) s = TypeError ∧
  viewMoreBtn s' = Some {| disabled := true; textContent := "Loading..." |} ∧
  viewMoreContainer s' = viewMoreContainer s ∧
  loadedItems s' = loadedItems s ∪ list_to_set (nextBatch cfg s) ∧
  JewelleryGridManager.loadMoreItems cfg names s' = (Normal tt, s').
Proof.
  intros Hb Hd Hg s'.
  assert (JewelleryGridManager.loadMoreItems cfg names s =
          (TypeError,
           set_loadedItems (loadedItems s ∪ list_to_set (nextBatch cfg s))
             (set_viewMoreBtn
                (Some {| disabled := true; textContent := "Loading..." |}) s)))
    as Hrun.
  { unfold JewelleryGridManager.loadMoreItems, nextBatch.
    unfold mbind, M_bind, bind, deref, ret, throw, modify, get. rewrite Hb, Hd.
    rewrite loadItemsBatch_run, arrayFrom_offset. cbn [grid set_viewMoreBtn].
    rewrite Hg. reflexivity. }
  subst s'. unfold completion, exec. rewrite Hrun. cbn [fst snd].
  split_and!; reflexivity.
Qed.

Lemma loadMoreItems_without_grid_witness :
  let s := set_grid None JewelleryGridManager.page in
  let s' := exec (JewelleryGridManager.loadMoreItems JEWELLERY_CONFIG JEWELLERY_NAMES) s in
  grid s = None ∧
  viewMoreBtn s' = Some {| disabled := true; textContent := "Loading..." |} ∧
  JewelleryGridManager.loadMoreItems JEWELLERY_CONFIG JEWELLERY_NAMES s' =
    (Normal tt, s').
Proof.
  intros s s'.
  pose proof (loadMoreItems_without_grid JEWELLERY_CONFIG JEWELLERY_NAMES s
                {| disabled := false; textContent := "View More Jewellery" |}
                eq_refl eq_refl eq_refl) as H.
  cbv zeta in H. fold s' in H. destruct H as (_ & Hb & _ & _ & Hagain).
  split_and!; [reflexivity|exact Hb|exact Hagain].
Defined.
(** * Image events *)

Lemma digitValue_pretty_N_char (d : N) :
  (d < 10)%N → Parse.digitValue 10 (pretty_N_char d) = Some d.
Proof.
  intros Hd.
  assert (Hcases : d ∈ (N.of_nat <$> seq 0 10)).
  { apply list_elem_of_fmap. exists (N.to_nat d). split; [lia|].
    apply elem_of_seq. lia. }
  cbn in Hcases.
  repeat (apply elem_of_cons in Hcases as [->|Hcases]; [vm_compute; reflexivity|]).
  by apply elem_of_nil in Hcases.
Qed.

Lemma digits_pretty_N_go (x : N) :
  (0 < x)%N →
  ∃ k : N, ∀ s acc,
    Parse.digits 10 (pretty_N_go x s) acc =
    Parse.digits 10 s (Some (default 0 acc * 10 ^ k + x))%N.
Proof.
  induction (N.lt_wf_0 x) as [x _ IH]. intros Hx.
  assert (x `mod` 10 < 10)%N as Hmod by (apply N.mod_lt; lia).
  pose proof (N.div_mod x 10 ltac:(lia)) as Hdm.
  destruct (decide (x `div` 10 = 0)%N) as [Hz|Hnz].
  - exists 1%N. intros s acc. rewrite pretty_N_go_step by done.
    rewrite Hz, pretty_N_go_0. cbn [Parse.digits].
    rewrite digitValue_pretty_N_char by done. do 2 f_equal.
    rewrite N.pow_1_r. rewrite Hz, N.mul_0_r, N.add_0_l in Hdm.
    rewrite <- Hdm. by rewrite (N.mul_comm 10).
  - destruct (IH (x `div` 10)%N) as [k Hk].
    { apply N.div_lt; lia. }
    { lia. }
    exists (k + 1)%N. intros s acc. rewrite pretty_N_go_step by done.
    rewrite Hk. cbn [Parse.digits].
    rewrite digitValue_pretty_N_char by done. do 2 f_equal.
    cbn [default]. rewrite N.pow_add_r, N.pow_1_r.
    unfold id. clear -Hdm. revert Hdm.
    generalize (x `div` 10)%N (x `mod` 10)%N (10 ^ k)%N (default 0%N acc).
    intros q r p a ->. lia.
Qed.

Lemma pretty_N_go_head (x : N) (s : string) :
  (0 < x)%N →
  ∃ c rest, pretty_N_go x s = String c rest ∧
            c ∈ ["1"; "2"; "3"; "4"; "5"; "6"; "7"; "8"; "9"]%char.
Proof.
  revert s. induction (N.lt_wf_0 x) as [x _ IH]. intros s Hx.
  rewrite pretty_N_go_step by done.
  destruct (decide (x `div` 10 = 0)%N) as [Hz|Hnz].
  - rewrite Hz, pretty_N_go_0. eexists _, _. split; [done|].
    assert (x < 10)%N as Hlt.
    { destruct (decide (x < 10)%N) as [|Hge]; [done|].
      apply N.div_small_iff in Hz; lia. }
    rewrite N.mod_small by done.
    assert (Hcases : x ∈ (N.of_nat <$> seq 1 9)).
    { apply list_elem_of_fmap. exists (N.to_nat x). split; [lia|].
      apply elem_of_seq. lia. }
    cbn in Hcases.
    repeat (apply elem_of_cons in Hcases as [->|Hcases];
            [cbn; set_solver|]).
    by apply elem_of_nil in Hcases.
  - apply IH; first [by apply N.neq_0_lt_0 | apply N.div_lt; lia].
Qed.

Lemma trimStart_head (c : ascii) (rest : string) :
  Parse.asciiSpace c = false →
  (N_of_ascii c <? 194)%N = true →
  Parse.trimStart (String c rest) = String c rest.
Proof.
  intros Hc Hlow.
  assert (∀ b, Parse.twoByteSpace c b = false) as H2.
  { intros b. unfold Parse.twoByteSpace.
    apply N.ltb_lt in Hlow.
    by rewrite (proj2 (N.eqb_neq _ _)) by lia. }
  assert (∀ b d, Parse.threeByteSpace c b d = false) as H3.
  { intros b d. unfold Parse.threeByteSpace.
    apply N.ltb_lt in Hlow.
    by rewrite !(proj2 (N.eqb_neq (N_of_ascii c) _)) by lia. }
  cbn [Parse.trimStart]. rewrite Hc.
  destruct rest as [|b [|d r]]; [done|by rewrite H2|by rewrite H2, H3].
Qed.

(** A string that starts with a digit from 1 to 9 has no white space, sign
    or radix prefix for [parseInt] to take off. *)
Lemma mathInt_digit_head (c : ascii) (rest : string) :
  c ∈ ["1"; "2"; "3"; "4"; "5"; "6"; "7"; "8"; "9"]%char →
  Parse.mathInt (String c rest) =
  Z.of_N <$> Parse.digits 10 (String c rest) None ∧
  Parse.mathInt (String "-" (String c rest)) =
  (λ n, - Z.of_N n) <$> Parse.digits 10 (String c rest) None.
Proof.
  intros Hc.
  assert (Parse.trimStart (String "-" (String c rest)) =
          String "-" (String c rest)) as Hminus by by apply trimStart_head.
  unfold Parse.mathInt. rewrite Hminus.
  repeat (apply elem_of_cons in Hc as [->|Hc];
          [rewrite trimStart_head by done;
           split; (destruct (Parse.digits 10 _ None); reflexivity)|]).
  by apply elem_of_nil in Hc.
Qed.

(** The digits of the decimal form of an integer are read back in full. *)
Lemma mathInt_pretty (x : Z) : Parse.mathInt (pretty x) = Some x.
Proof.
  destruct x as [|p|p].
  - reflexivity.
  - change (pretty (Z.pos p)) with (pretty (N.pos p)).
    unfold pretty, pretty_N. rewrite decide_False by done.
    destruct (pretty_N_go_head (N.pos p) "" ltac:(lia)) as (c & rest & Hgo & Hc).
    destruct (digits_pretty_N_go (N.pos p) ltac:(lia)) as [k Hk].
    specialize (Hk "" None). rewrite Hgo in Hk |- *.
    rewrite (proj1 (mathInt_digit_head c rest Hc)), Hk.
    cbn. f_equal.
  - change (pretty (Z.neg p)) with ("-" +:+ pretty (N.pos p)).
    unfold pretty, pretty_N. rewrite decide_False by done.
    destruct (pretty_N_go_head (N.pos p) "" ltac:(lia)) as (c & rest & Hgo & Hc).
    destruct (digits_pretty_N_go (N.pos p) ltac:(lia)) as [k Hk].
    specialize (Hk "" None). rewrite Hgo in Hk |- *.
    change ("-" +:+ String c rest) with (String "-" (String c rest)).
    rewrite (proj2 (mathInt_digit_head c rest Hc)), Hk.
    cbn. f_equal.
Qed.

Lemma toNumber_safe (x : Z) :
  Z.abs x ≤ 2 ^ 53 → Parse.toNumber x = Parse.Finite x.
Proof.
  intros Hx. unfold Parse.toNumber. rewrite roundDouble_safe by done.
  assert (2 ^ 53 < 2 ^ 1024) by (vm_compute; reflexivity).
  by rewrite (proj2 (Z.ltb_lt _ _)) by lia.
Qed.

(** [parseInt] gives back an integer of up to [2 ^ 53] in size from its
    decimal form. *)
Lemma parseInt_pretty (x : Z) :
  Z.abs x ≤ 2 ^ 53 → Parse.parseInt (pretty x) = Some (Parse.Finite x).
Proof.
  intros Hx. unfold Parse.parseInt. rewrite mathInt_pretty. cbn.
  by rewrite toNumber_safe.
Qed.

Lemma pretty_Z_nonempty (x : Z) : pretty x ≠ "".
Proof.
  intros H. pose proof (mathInt_pretty x) as Hp. rewrite H in Hp. discriminate.
Qed.

Lemma getFallbackImage_entry (cfg : Config) (x : Z) :
  FALLBACK_IMAGES cfg ≠ [] → 1 ≤ x → x ≤ 2 ^ 53 →
  ∃ url,
    FALLBACK_IMAGES cfg
      !! Z.to_nat ((x - 1) `mod` Z.of_nat (length (FALLBACK_IMAGES cfg)))
      = Some url ∧
    JewelleryImageManager.getFallbackImage cfg x = Some url.
Proof.
  intros Hne Hx Hsafe. rewrite getFallbackImage_mod by done.
  set (len := Z.of_nat (length (FALLBACK_IMAGES cfg))).
  assert (0 < len).
  { subst len. destruct (FALLBACK_IMAGES cfg); [done|]. cbn [length]. lia. }
  pose proof (Z.mod_pos_bound (x - 1) len ltac:(lia)) as Hb.
  destruct (FALLBACK_IMAGES cfg !! Z.to_nat ((x - 1) `mod` len)) as [url|] eqn:E.
  - by exists url.
  - apply lookup_ge_None in E. lia.
Qed.

(** When the image of the card of a positive identifier [x] of up to
    [2 ^ 53], which [parseInt] reads back from the card as it is, fails to
    load, the handler gives it the fallback entry at index
    [(x - 1) mod length] as its source and leaves the rest of the card alone;
    a second failure sets the same source again. *)
Theorem imageFailed_fallback (cfg : Config) (c : Card) (x : Z) :
  card_itemId c = pretty x → 1 ≤ x → x ≤ 2 ^ 53 → FALLBACK_IMAGES cfg ≠ [] →
  ∃ url,
    Parse.parseInt (card_itemId c) = Some (Parse.Finite x) ∧
    FALLBACK_IMAGES cfg
      !! Z.to_nat ((x - 1) `mod` Z.of_nat (length (FALLBACK_IMAGES cfg)))
      = Some url ∧
    img_src (card_image (imageFailed cfg c)) = Some url ∧
    card_itemId (imageFailed cfg c) = card_itemId c ∧
    card_button (imageFailed cfg c) = card_button c ∧
    img_dataSrc (card_image (imageFailed cfg c)) = img_dataSrc (card_image c) ∧
    img_opacity (card_image (imageFailed cfg c)) = img_opacity (card_image c) ∧
    imageFailed cfg (imageFailed cfg c) = imageFailed cfg c.
Proof.
  intros Hid Hx Hsafe Hne.
  destruct (getFallbackImage_entry cfg x Hne Hx Hsafe) as (url & Hurl & Hget).
  assert (Parse.parseInt (pretty x) = Some (Parse.Finite x)) as Hparse
    by (apply parseInt_pretty; lia).
  exists url.
  assert (imageFailed cfg c =
          {| card_itemId := card_itemId c;
             card_image :=
               {| img_dataSrc := img_dataSrc (card_image c);
                  img_alt := img_alt (card_image c);
                  img_src := Some url;
                  img_opacity := img_opacity (card_image c) |};
             card_button := card_button c |}) as Hrun.
  { unfold imageFailed. rewrite Hid.
    rewrite decide_False by apply pretty_Z_nonempty.
    by rewrite Hparse, Hget. }
  split_and!; [by rewrite Hid|done|by rewrite Hrun..|].
  rewrite Hrun. unfold imageFailed.
  cbn [card_itemId card_image img_dataSrc img_alt img_opacity card_button].
  rewrite Hid. rewrite decide_False by apply pretty_Z_nonempty.
  by rewrite Hparse, Hget.
Qed.

Lemma imageFailed_fallback_witness :
  let c := JewelleryGridManager.observe (newCard JEWELLERY_CONFIG JEWELLERY_NAMES 7) in
  card_itemId c = pretty 7 ∧ 7 ≤ 2 ^ 53 ∧
  img_src (card_image (imageFailed JEWELLERY_CONFIG c)) =
    Some "https://images.unsplash.com/photo-1594576722512-582d5577dc56?ixlib=rb-4.0.3&auto=format&fit=crop&w=600&q=80".
Proof.
  intros c.
  assert (card_itemId c = pretty 7) as Hid by (vm_compute; reflexivity).
  assert (7 ≤ 2 ^ 53) as Hs by (vm_compute; discriminate).
  destruct (imageFailed_fallback JEWELLERY_CONFIG c 7 Hid ltac:(lia) Hs
              ltac:(discriminate)) as (url & _ & Hurl & Hsrc & _).
  split_and!; [exact Hid|exact Hs|]. rewrite Hsrc, <- Hurl. reflexivity.
Defined.

(** An identifier text [parseInt] cannot read (NaN), or an empty fallback
    list, leaves the failed image with the source text ["undefined"]; a card
    without identifier text is not touched. *)
Theorem imageFailed_undefined (cfg : Config) (c : Card) :
  (card_itemId c = "" → imageFailed cfg c = c) ∧
  (card_itemId c ≠ "" →
   Parse.parseInt (card_itemId c) = None ∨ FALLBACK_IMAGES cfg = [] →
   img_src (card_image (imageFailed cfg c)) = Some "undefined").
Proof.
  unfold imageFailed. split.
  - intros ->. by rewrite decide_True.
  - intros Hne H. rewrite decide_False by done. cbn [card_image img_src].
    destruct H as [->|Hempty]; [done|].
    destruct (Parse.parseInt (card_itemId c)) as [[n|b]|]; [|done..].
    unfold JewelleryImageManager.getFallbackImage,
      JewelleryImageManager.fallbackIndex, JS.rem.
    by rewrite Hempty.
Qed.

Lemma imageFailed_undefined_witness :
  let c := {| card_itemId := "ring-7";
              card_image := {| img_dataSrc := "images/ring-7.jpg"; img_alt := "";
                               img_src := Some "images/ring-7.jpg";
                               img_opacity := "0" |};
              card_button := ∅ |} in
  img_src (card_image (imageFailed JEWELLERY_CONFIG c)) = Some "undefined".
Proof.
  intros c.
  apply (proj2 (imageFailed_undefined JEWELLERY_CONFIG c)).
  - discriminate.
  - left. vm_compute. reflexivity.
Defined.

(** A successful batch load assigns every image of the grid its [data-src]
    again, the old cards' too: an image that had been given a fallback after
    a failed load goes back to its first source. *)
Theorem loadItemsBatch_resets_sources (cfg : Config) (names : list string)
    (itemIds : list Z) (s : State) (g : list Card) :
  grid s = Some g →
  let s' := exec (JewelleryGridManager.loadItemsBatch cfg names itemIds) s in
  Forall (λ c, img_src (card_image c) = Some (img_dataSrc (card_image c)))
         (cards s') ∧
  (λ c, img_dataSrc (card_image c)) <$> take (length g) (cards s') =
  (λ c, img_dataSrc (card_image c)) <$> g.
Proof.
  intros Hg s'. subst s'. unfold exec, cards.
  rewrite loadItemsBatch_run, Hg. cbn [snd grid set_grid default]. unfold id.
  split.
  - apply Forall_fmap, Forall_forall. by intros c _.
  - rewrite fmap_app, take_app_length' by by rewrite length_fmap.
    rewrite <- list_fmap_compose. by apply list_fmap_ext.
Qed.

Lemma loadItemsBatch_resets_sources_witness :
  let failed := imageFailed JEWELLERY_CONFIG
                  (JewelleryGridManager.observe
                     (newCard JEWELLERY_CONFIG JEWELLERY_NAMES 1)) in
  let s := set_loadedItems {[1]}
             (set_grid (Some [failed]) JewelleryGridManager.page) in
  let s' := exec (JewelleryGridManager.loadItemsBatch JEWELLERY_CONFIG JEWELLERY_NAMES [2]) s in
  img_src (card_image failed) = FALLBACK_IMAGES JEWELLERY_CONFIG !! 0%nat ∧
  (img_src ∘ card_image) <$> cards s' =
    [Some "images/jewel-1.jpg"; Some "images/jewel-2.jpg"].
Proof.
  intros failed s s'.
  destruct (loadItemsBatch_resets_sources JEWELLERY_CONFIG JEWELLERY_NAMES [2]
              s [failed] eq_refl) as [Hall _].
  split; [vm_compute; reflexivity|].
  fold s' in Hall.
  assert ((λ c, img_dataSrc (card_image c)) <$> cards s' =
          ["images/jewel-1.jpg"; "images/jewel-2.jpg"]) as Hdata
    by (vm_compute; reflexivity).
  revert Hall Hdata. generalize (cards s'). intros l Hall Hdata.
  destruct l as [|c1 [|c2 [|c3 l]]]; try discriminate.
  apply Forall_cons_1 in Hall as [H1 Hall].
  apply Forall_cons_1 in Hall as [H2 _].
  injection Hdata as Hd1 Hd2. cbn. by rewrite H1, H2, Hd1, Hd2.
Defined.

(** * The initial load and the life cycle *)

(** An initial load on a page with the grid completes normally and leaves the
    loading indicator hidden, its other classes as they were, and the button
    as it was; on a page without the grid it fails with a [TypeError] and
    leaves the indicator showing and the "load more" container as it was. *)
Theorem loadInitialItems_indicator (cfg : Config) (names : list string) (s : State) :
  let s' := exec (JewelleryGridManager.loadInitialItems cfg names) s in
  (is_Some (grid s) →
   completion (JewelleryGridManager.loadInitialItems cfg names) s = Normal tt ∧
   viewMoreBtn s' = viewMoreBtn s ∧
   ∀ cl, loadingIndicator s = Some cl →
     ∃ cl', loadingIndicator s' = Some cl' ∧ "hidden" ∈ cl' ∧
            ∀ cls, cls ≠ "hidden" → (cls ∈ cl' ↔ cls ∈ cl)) ∧
  (grid s = None →
   completion (JewelleryGridManager.loadInitialItems cfg names) s = TypeError ∧
   viewMoreContainer s' = viewMoreContainer s ∧
   ∀ cl, loadingIndicator s = Some cl →
     ∃ cl', loadingIndicator s' = Some cl' ∧ "hidden" ∉ cl').
Proof.
  intros s'. subst s'.
  unfold completion, exec, JewelleryGridManager.loadInitialItems,
    JewelleryGridManager.showLoading, JewelleryGridManager.updateViewMoreButton.
  unfold mbind, M_bind, bind, modify. rewrite loadItemsBatch_run.
  destruct s as [[g|] [li|] [vc|] ? ? ? ? ? ? ? ?]; cbn; split;
    try (by intros [? [=]]); try (by intros [=]); intros _;
    (split_and!; [reflexivity..|]); intros cl [= <-];
    eexists; (split; [reflexivity|]); unfold classList_toggle; cbn; set_solver.
Qed.

Lemma loadInitialItems_indicator_witness :
  let s' := exec (JewelleryGridManager.loadInitialItems JEWELLERY_CONFIG JEWELLERY_NAMES)
              JewelleryGridManager.page in
  let t' := exec (JewelleryGridManager.loadInitialItems JEWELLERY_CONFIG JEWELLERY_NAMES)
              (set_grid None JewelleryGridManager.page) in
  (∃ cl', loadingIndicator s' = Some cl' ∧ "hidden" ∈ cl') ∧
  (∃ cl', loadingIndicator t' = Some cl' ∧ "hidden" ∉ cl').
Proof.
  intros s' t'. split.
  - destruct (proj1 (loadInitialItems_indicator JEWELLERY_CONFIG JEWELLERY_NAMES
                       JewelleryGridManager.page) ltac:(by eexists))
      as (_ & _ & H).
    destruct (H ∅ eq_refl) as (cl' & ? & ? & _). by exists cl'.
  - destruct (proj2 (loadInitialItems_indicator JEWELLERY_CONFIG JEWELLERY_NAMES
                       (set_grid None JewelleryGridManager.page)) eq_refl)
      as (_ & _ & H).
    destruct (H ∅ eq_refl) as (cl' & ? & ?). by exists cl'.
Defined.

Lemma observe_observe (g : list Card) :
  JewelleryGridManager.observe <$> (JewelleryGridManager.observe <$> g) =
  JewelleryGridManager.observe <$> g.
Proof. rewrite <- list_fmap_compose. by apply list_fmap_ext. Qed.

Lemma setupImageObservers_observed (s : State) (g : list Card) :
  grid s = Some (JewelleryGridManager.observe <$> g) →
  JewelleryGridManager.setupImageObservers s = (Normal tt, s).
Proof.
  intros Hg. unfold JewelleryGridManager.setupImageObservers.
  unfold mbind, M_bind, bind, deref, ret, modify. rewrite Hg.
  rewrite observe_observe, <- Hg. by destruct s.
Qed.

Lemma loadInitialItems_isInitializing (cfg : Config) (names : list string)
    (b : bool) (s : State) :
  JewelleryGridManager.loadInitialItems cfg names (set_isInitializing b s) =
  (fst (JewelleryGridManager.loadInitialItems cfg names s),
   set_isInitializing b (snd (JewelleryGridManager.loadInitialItems cfg names s))).
Proof.
  unfold JewelleryGridManager.loadInitialItems,
    JewelleryGridManager.showLoading, JewelleryGridManager.updateViewMoreButton.
  unfold mbind, M_bind, bind, modify. rewrite !loadItemsBatch_run.
  destruct s as [[g|] [li|] [vc|] ? ? ? ? ? ? ? ?]; reflexivity.
Qed.

Lemma loadInitialItems_keeps_flag (cfg : Config) (names : list string) (s : State) :
  isInitializing (exec (JewelleryGridManager.loadInitialItems cfg names) s) =
  isInitializing s.
Proof.
  unfold exec, JewelleryGridManager.loadInitialItems,
    JewelleryGridManager.showLoading, JewelleryGridManager.updateViewMoreButton.
  unfold mbind, M_bind, bind, modify. rewrite loadItemsBatch_run.
  destruct s as [[g|] [li|] [vc|] ? ? ? ? ? ? ? ?]; reflexivity.
Qed.

Lemma set_isInitializing_same (s : State) :
  set_isInitializing (isInitializing s) s = s.
Proof. by destruct s. Qed.

Lemma set_isInitializing_twice (a b : bool) (s : State) :
  set_isInitializing a (set_isInitializing b s) = set_isInitializing a s.
Proof. reflexivity. Qed.

Lemma bindMM_run {A B} (m : MM A) (k : A → MM B) (w w' : Manager) (a : A) :
  m w = (Normal a, w') → (m ≫= k) w = k a w'.
Proof. intros H. unfold mbind, MM_bind, bindMM. by rewrite H. Qed.

Lemma tryCatchFinally_normal (body handler final : MM unit) (w w1 w2 : Manager) :
  body w = (Normal tt, w1) → final w1 = (Normal tt, w2) →
  tryCatchFinally body handler final w = (Normal tt, w2).
Proof. intros Hb Hf. unfold tryCatchFinally. by rewrite Hb, Hf. Qed.

Lemma lift_run {A} (m : M A) (w : Manager) (a : A) (s : State) :
  m (this w) = (Normal a, s) → lift m w = (Normal a, set_this s w).
Proof. intros H. unfold lift. by rewrite H. Qed.

(** With the grid there, [setupEventListeners] registers a new function on
    the grid, and before it one on the button when the page has the button. *)
Lemma setupEventListeners_run (w : Manager) (g : list Card) :
  grid (this w) = Some g →
  Lifecycle.setupEventListeners w =
  (Normal tt,
   {| this := this w;
      btnListeners :=
        if viewMoreBtn (this w) is Some _
        then addEventListener (functions w) (btnListeners w)
        else btnListeners w;
      gridListeners :=
        addEventListener
          (if viewMoreBtn (this w) is Some _ then S (functions w) else functions w)
          (gridListeners w);
      functions :=
        if viewMoreBtn (this w) is Some _
        then S (S (functions w)) else S (functions w);
      fallbackShown := fallbackShown w;
      consoleErrors := consoleErrors w |}).
Proof.
  intros Hg. unfold Lifecycle.setupEventListeners.
  rewrite (bindMM_run getMM _ w w w eq_refl).
  destruct (viewMoreBtn (this w)) as [b|] eqn:Hb.
  - erewrite bindMM_run; [|erewrite bindMM_run by reflexivity; reflexivity].
    erewrite bindMM_run;
      [|apply lift_run; unfold deref, ret;
        cbn [this set_btnListeners set_functions]; rewrite Hg; reflexivity].
    erewrite bindMM_run by reflexivity.
    unfold modifyMM. cbn. by destruct w.
  - erewrite bindMM_run by reflexivity.
    erewrite bindMM_run;
      [|apply lift_run; unfold deref, ret; rewrite Hg; reflexivity].
    erewrite bindMM_run by reflexivity.
    unfold modifyMM. cbn. by destruct w.
Qed.

(** [init] on a manager whose page has the grid and that is not initialising
    already: the listeners are registered, the initial load runs, and the
    pass over the images that follows finds nothing left to do. *)
Lemma init_run (cfg : Config) (names : list string) (w : Manager) (g : list Card) :
  grid (this w) = Some g → isInitializing (this w) = false →
  Lifecycle.init cfg names w =
  (Normal tt,
   {| this := exec (JewelleryGridManager.loadInitialItems cfg names) (this w);
      btnListeners :=
        if viewMoreBtn (this w) is Some _
        then addEventListener (functions w) (btnListeners w)
        else btnListeners w;
      gridListeners :=
        addEventListener
          (if viewMoreBtn (this w) is Some _ then S (functions w) else functions w)
          (gridListeners w);
      functions :=
        if viewMoreBtn (this w) is Some _
        then S (S (functions w)) else S (functions w);
      fallbackShown := fallbackShown w;
      consoleErrors := consoleErrors w |}).
Proof.
  intros Hg Hflag.
  set (s1 := set_isInitializing true (this w)).
  pose proof (loadInitialItems_loads cfg names s1) as [_ Hgrid].
  change (grid s1) with (grid (this w)) in Hgrid. rewrite Hg in Hgrid.
  cbn [fmap option_fmap option_map] in Hgrid.
  pose proof (proj1 (loadInitialItems_indicator cfg names s1)
                ltac:(by exists g)) as (Hnormal & _).
  unfold completion in Hnormal. unfold exec in Hgrid.
  assert (JewelleryGridManager.loadInitialItems cfg names s1 =
          (Normal tt, (JewelleryGridManager.loadInitialItems cfg names s1).2))
    as Hload.
  { destruct (JewelleryGridManager.loadInitialItems cfg names s1) as [c s2].
    cbn in Hnormal |- *. by rewrite Hnormal. }
  set (W1 :=
    {| this := (JewelleryGridManager.loadInitialItems cfg names s1).2;
       btnListeners :=
         if viewMoreBtn (this w) is Some _
         then addEventListener (functions w) (btnListeners w)
         else btnListeners w;
       gridListeners :=
         addEventListener
           (if viewMoreBtn (this w) is Some _ then S (functions w) else functions w)
           (gridListeners w);
       functions :=
         if viewMoreBtn (this w) is Some _
         then S (S (functions w)) else S (functions w);
       fallbackShown := fallbackShown w;
       consoleErrors := consoleErrors w |}).
  assert ((Lifecycle.setupEventListeners;;
           lift (JewelleryGridManager.loadInitialItems cfg names);;
           lift JewelleryGridManager.setupImageObservers) (set_this s1 w) =
          (Normal tt, W1)) as Hbody.
  { erewrite bindMM_run; [|by apply (setupEventListeners_run _ g)].
    erewrite bindMM_run; [|apply lift_run; exact Hload].
    erewrite lift_run;
      [|eapply setupImageObservers_observed; cbn [this set_this]; exact Hgrid].
    reflexivity. }
  unfold Lifecycle.init.
  rewrite (bindMM_run getMM _ w w w eq_refl). rewrite Hg, Hflag.
  erewrite bindMM_run by reflexivity.
  rewrite (tryCatchFinally_normal _ _ _ _ W1
             (set_this (set_isInitializing false (this W1)) W1) Hbody eq_refl).
  f_equal. subst W1. unfold set_this. cbn. f_equal.
  subst s1. rewrite loadInitialItems_isInitializing. cbn [snd].
  rewrite set_isInitializing_twice.
  rewrite <- Hflag at 1.
  rewrite <- (loadInitialItems_keeps_flag cfg names (this w)).
  apply set_isInitializing_same.
Qed.

(** Constructing the manager on a page that has the grid amounts to one
    initial load: the manager's fields and page are those the load leaves
    (the pass over the images after it changes nothing), the flag is down
    again, the grid has one click listener and the button, when the page has
    one, has one too, the placeholder is not shown and nothing was reported
    as an error.  On a page whose grid shows no card yet the state is a
    reachable one. *)
Theorem constructor_with_grid (cfg : Config) (names : list string)
    (page : State) (g : list Card) :
  grid page = Some g →
  let w := Lifecycle.constructor cfg names page in
  this w = exec (JewelleryGridManager.loadInitialItems cfg names)
                (JewelleryGridManager.new page) ∧
  isInitializing (this w) = false ∧
  length (gridListeners w) = 1%nat ∧
  length (btnListeners w) = (if viewMoreBtn page is Some _ then 1 else 0)%nat ∧
  listenersKnown w ∧
  fallbackShown w = false ∧ consoleErrors w = [] ∧
  (g = [] → reachable cfg names (this w)).
Proof.
  intros Hg w. subst w. unfold Lifecycle.constructor.
  erewrite (init_run cfg names _ g) by (cbn; done).
  cbn [snd this btnListeners gridListeners functions fallbackShown consoleErrors].
  change (viewMoreBtn (JewelleryGridManager.new page)) with (viewMoreBtn page).
  split_and!; try reflexivity.
  - rewrite loadInitialItems_keeps_flag. reflexivity.
  - by destruct (viewMoreBtn page).
  - unfold listenersKnown.
    cbn [btnListeners gridListeners functions].
    destruct (viewMoreBtn page); cbn; repeat constructor.
  - intros ->. apply reach_initial, reach_new. unfold cards. by rewrite Hg.
Qed.

Lemma constructor_with_grid_witness :
  let w := Lifecycle.constructor JEWELLERY_CONFIG JEWELLERY_NAMES
             JewelleryGridManager.page in
  grid JewelleryGridManager.page = Some [] ∧
  length (gridListeners w) = 1%nat ∧ length (btnListeners w) = 1%nat ∧
  reachable JEWELLERY_CONFIG JEWELLERY_NAMES (this w).
Proof.
  intros w.
  pose proof (constructor_with_grid JEWELLERY_CONFIG JEWELLERY_NAMES
                JewelleryGridManager.page [] eq_refl) as H.
  cbv zeta in H. fold w in H.
  destruct H as (_ & _ & Hgl & Hbl & _ & _ & _ & Hreach).
  split_and!; [reflexivity|exact Hgl|exact Hbl|exact (Hreach eq_refl)].
Defined.

(** On a page without the grid the constructor reports the missing element
    and does nothing else: no listener is registered and nothing is
    loaded. *)
Theorem constructor_without_grid (cfg : Config) (names : list string)
    (page : State) :
  grid page = None →
  Lifecycle.constructor cfg names page =
  {| this := JewelleryGridManager.new page;
     btnListeners := []; gridListeners := []; functions := 0;
     fallbackShown := false;
     consoleErrors := ["Jewellery grid element not found"] |}.
Proof.
  intros Hg. unfold Lifecycle.constructor, Lifecycle.init.
  erewrite bindMM_run by reflexivity.
  cbn [this]. change (grid (JewelleryGridManager.new page)) with (grid page).
  by rewrite Hg.
Qed.

Lemma constructor_without_grid_witness :
  let w := Lifecycle.constructor JEWELLERY_CONFIG JEWELLERY_NAMES
             (set_grid None JewelleryGridManager.page) in
  gridListeners w = [] ∧ btnListeners w = [] ∧ loadedItems (this w) = ∅ ∧
  consoleErrors w = ["Jewellery grid element not found"].
Proof.
  intros w. subst w.
  rewrite (constructor_without_grid JEWELLERY_CONFIG JEWELLERY_NAMES
             (set_grid None JewelleryGridManager.page) eq_refl).
  split_and!; reflexivity.
Defined.

(** [init] called again while the flag is up does nothing. *)
Theorem init_reentry (cfg : Config) (names : list string) (w : Manager) :
  is_Some (grid (this w)) → isInitializing (this w) = true →
  Lifecycle.init cfg names w = (Normal tt, w).
Proof.
  intros [g Hg] Hflag. unfold Lifecycle.init.
  erewrite bindMM_run by reflexivity. by rewrite Hg, Hflag.
Qed.

Lemma init_reentry_witness :
  let w := {| this := set_isInitializing true JewelleryGridManager.page;
              btnListeners := []; gridListeners := []; functions := 0;
              fallbackShown := false; consoleErrors := [] |} in
  Lifecycle.init JEWELLERY_CONFIG JEWELLERY_NAMES w = (Normal tt, w).
Proof.
  intros w.
  apply (init_reentry JEWELLERY_CONFIG JEWELLERY_NAMES w); [by eexists|reflexivity].
Defined.

Lemma removeEventListener_other (f : nat) (listeners : list nat) :
  f ∉ listeners → removeEventListener f listeners = listeners.
Proof.
  intros Hf. unfold removeEventListener.
  induction listeners as [|x l IH]; [done|].
  rewrite filter_cons_True.
  - f_equal. apply IH. intros ?. apply Hf. by right.
  - intros ->. apply Hf. by left.
Qed.

(** [destroy] takes no listener away: the functions it hands to
    [removeEventListener] were made on the spot, so none of them is a
    registered listener, and the button and the grid keep theirs.  The
    manager's fields and the page do not change either. *)
Theorem destroy_keeps_listeners (w : Manager) :
  listenersKnown w →
  fst (Lifecycle.destroy w) = Normal tt ∧
  btnListeners (snd (Lifecycle.destroy w)) = btnListeners w ∧
  gridListeners (snd (Lifecycle.destroy w)) = gridListeners w ∧
  this (snd (Lifecycle.destroy w)) = this w.
Proof.
  intros Hknown. unfold listenersKnown in Hknown.
  apply Forall_app in Hknown as [Hbtn Hgrid].
  rewrite Forall_forall in Hbtn, Hgrid.
  unfold Lifecycle.destroy.
  erewrite bindMM_run by reflexivity.
  destruct (viewMoreBtn (this w)) as [b|] eqn:Hb.
  - erewrite bindMM_run; [|erewrite bindMM_run by reflexivity; reflexivity].
    erewrite bindMM_run by reflexivity.
    cbn [this set_btnListeners set_functions].
    rewrite removeEventListener_other
      by (intros Hin; apply Hbtn in Hin; cbn in Hin; lia).
    destruct (grid (this w)) as [g|] eqn:Hg.
    + erewrite bindMM_run by reflexivity.
      unfold modifyMM.
      cbn [fst snd this btnListeners gridListeners functions
           set_btnListeners set_gridListeners set_functions].
      rewrite removeEventListener_other
        by (intros Hin; apply Hgrid in Hin; lia).
      done.
    + done.
  - erewrite bindMM_run by reflexivity.
    erewrite bindMM_run by reflexivity.
    destruct (grid (this w)) as [g|] eqn:Hg.
    + erewrite bindMM_run by reflexivity.
      unfold modifyMM.
      cbn [fst snd this btnListeners gridListeners functions
           set_btnListeners set_gridListeners set_functions].
      rewrite removeEventListener_other
        by (intros Hin; apply Hgrid in Hin; lia).
      done.
    + done.
Qed.

Lemma destroy_keeps_listeners_witness :
  let w := Lifecycle.constructor JEWELLERY_CONFIG JEWELLERY_NAMES
             JewelleryGridManager.page in
  listenersKnown w ∧
  length (btnListeners (snd (Lifecycle.destroy w))) = 1%nat ∧
  length (gridListeners (snd (Lifecycle.destroy w))) = 1%nat.
Proof.
  intros w.
  pose proof (constructor_with_grid JEWELLERY_CONFIG JEWELLERY_NAMES
                JewelleryGridManager.page [] eq_refl) as H.
  cbv zeta in H. fold w in H.
  destruct H as (_ & _ & Hgl & Hbl & Hknown & _).
  destruct (destroy_keeps_listeners w Hknown) as (_ & Hb & Hg & _).
  split_and!; [exact Hknown|rewrite Hb; exact Hbl|rewrite Hg; exact Hgl].
Defined.

Lemma dispatch_one (f : nat) (handler : MM unit) (w : Manager) :
  Lifecycle.dispatch [f] handler w = (Normal tt, snd (handler w)).
Proof. reflexivity. Qed.

(** With one listener on the button, as the constructor leaves it, a click
    on "load more" does what one [loadMoreItems] call does, and with one
    listener on the grid a click on a buy button that carries
    [data-item-id] does what one [handleWhatsAppClick] call on that button
    does; a click on a button without that attribute does nothing. *)
Theorem click_runs_handler_once (cfg : Config) (names : list string)
    (w : Manager) (f f' : nat) (button : gmap string string) :
  btnListeners w = [f] → gridListeners w = [f'] → is_Some (grid (this w)) →
  this (snd (Lifecycle.clickViewMore cfg names w)) =
    exec (JewelleryGridManager.loadMoreItems cfg names) (this w) ∧
  (is_Some (button !! "itemId") →
   this (snd (Lifecycle.clickBuy button w)) =
     exec (JewelleryGridManager.handleWhatsAppClick button) (this w)) ∧
  (button !! "itemId" = None →
   Lifecycle.clickBuy button w = (Normal tt, w)).
Proof.
  intros Hbtn Hgrid [g Hg]. split_and!.
  - unfold Lifecycle.clickViewMore.
    erewrite bindMM_run by reflexivity. rewrite Hbtn.
    destruct (viewMoreBtn (this w)) as [b|] eqn:Hb.
    + destruct (disabled b) eqn:Hd.
      * cbn. symmetry. apply loadMoreItems_idle.
        intros b'. rewrite Hb. by intros [= <-].
      * by rewrite dispatch_one.
    + cbn. symmetry. apply loadMoreItems_idle. intros b'. by rewrite Hb.
  - intros Hid. unfold Lifecycle.clickBuy.
    erewrite bindMM_run by reflexivity. rewrite Hg, Hgrid, dispatch_one.
    by rewrite decide_True.
  - intros Hid. unfold Lifecycle.clickBuy.
    erewrite bindMM_run by reflexivity. rewrite Hg, Hgrid, dispatch_one.
    rewrite decide_False by (rewrite Hid; by intros [? [=]]).
    reflexivity.
Qed.

Lemma click_runs_handler_once_witness :
  let w := Lifecycle.constructor JEWELLERY_CONFIG JEWELLERY_NAMES
             JewelleryGridManager.page in
  btnListeners w = [0%nat] ∧ gridListeners w = [1%nat] ∧
  this (snd (Lifecycle.clickViewMore JEWELLERY_CONFIG JEWELLERY_NAMES w)) =
    exec (JewelleryGridManager.loadMoreItems JEWELLERY_CONFIG JEWELLERY_NAMES)
         (this w).
Proof.
  intros w.
  assert (btnListeners w = [0%nat]) as Hb by (vm_compute; reflexivity).
  assert (gridListeners w = [1%nat]) as Hg by (vm_compute; reflexivity).
  assert (is_Some (grid (this w))) as Hgrid by (vm_compute; by eexists).
  split_and!; [exact Hb|exact Hg|].
  exact (proj1 (click_runs_handler_once JEWELLERY_CONFIG JEWELLERY_NAMES
                  w 0 1 ∅ Hb Hg Hgrid)).
Defined.

(** After [destroy] the clicks still reach the handlers: on a manager as the
    constructor leaves it on a page with the grid and the button, a click on
    "load more" after [destroy] loads the next batch as before. *)
Theorem click_after_destroy (cfg : Config) (names : list string)
    (page : State) (g : list Card) (b : Button) :
  grid page = Some g → viewMoreBtn page = Some b →
  let w := Lifecycle.constructor cfg names page in
  let w' := snd (Lifecycle.destroy w) in
  this (snd (Lifecycle.clickViewMore cfg names w')) =
    exec (JewelleryGridManager.loadMoreItems cfg names) (this w).
Proof.
  intros Hg Hb w w'.
  pose proof (constructor_with_grid cfg names page g Hg) as H.
  cbv zeta in H. fold w in H. rewrite Hb in H.
  destruct H as (Hthis & _ & Hgl & Hbl & Hknown & _).
  destruct (destroy_keeps_listeners w Hknown) as (_ & Hb' & Hg' & Hthis').
  fold w' in Hb', Hg', Hthis'.
  destruct (btnListeners w) as [|f [|??]] eqn:Ebtn; try discriminate.
  destruct (gridListeners w) as [|f' [|??]] eqn:Egrid; try discriminate.
  rewrite <- Hthis'.
  apply (click_runs_handler_once cfg names w' f f' ∅ Hb' Hg').
  rewrite Hthis', Hthis.
  destruct (loadInitialItems_loads cfg names (JewelleryGridManager.new page))
    as [_ ->].
  change (grid (JewelleryGridManager.new page)) with (grid page).
  rewrite Hg. by eexists.
Qed.

Lemma click_after_destroy_witness :
  let w := Lifecycle.constructor JEWELLERY_CONFIG JEWELLERY_NAMES
             JewelleryGridManager.page in
  let w' := snd (Lifecycle.destroy w) in
  grid JewelleryGridManager.page = Some [] ∧
  this (snd (Lifecycle.clickViewMore JEWELLERY_CONFIG JEWELLERY_NAMES w')) =
    exec (JewelleryGridManager.loadMoreItems JEWELLERY_CONFIG JEWELLERY_NAMES)
         (this w).
Proof.
  intros w w'. split; [reflexivity|].
  exact (click_after_destroy JEWELLERY_CONFIG JEWELLERY_NAMES
           JewelleryGridManager.page []
           {| disabled := false; textContent := "View More Jewellery" |}
           eq_refl eq_refl).
Defined.

(** * A click on the buy button of a rendered card *)




